(** * Drone-operations coordination core ([src/logic.py])

    A shallow embedding of the matching / conflict / reassignment engine:
    [filter_pilots], [filter_drones], [recommend_assignment],
    [detect_conflicts] and [urgent_reassignment_plan], together with the
    string and date helpers they are built from.

    Conventions of the embedding.
    - A Python [str] is a list of Unicode code points ([list N]).
    - A record (a Python [dict] from field name to string) is a
      [gmap string str]; [r.get(k)] is the lookup [r !! k], where [None]
      plays Python's [None]; [r.get(k, d)] is [get_d]; [r[k]] is [index],
      which raises [KeyError].
    - Code that can raise returns a [result]; loops are folds in that
      monad, loops with [break] are structural recursions that stop.
    - [str.lower] and [dateutil.parser.parse] are library functions: the
      engine is embedded in a section parametrised by them, so that every
      statement holds whatever they compute.  Concrete instances
      ([ascii_lower], [iso_parse]) are supplied to run the engine. *)

From Stdlib Require Import ZArith NArith String Ascii List Bool Lia.
From stdpp Require Import base option list gmap strings.

Local Open Scope N_scope.

(** ** Strings *)

Abbreviation str := (list N).

(** An ASCII literal of the source as a Python string. *)
Definition lit (s : string) : str :=
  map N_of_ascii (list_ascii_of_string s).

(** [str.isspace] on one code point: the characters [str.strip()] removes. *)
Definition is_space (c : N) : bool :=
  ((9 <=? c) && (c <=? 13)) || ((28 <=? c) && (c <=? 32))
  || (c =? 133) || (c =? 160) || (c =? 5760)
  || ((8192 <=? c) && (c <=? 8202))
  || (c =? 8232) || (c =? 8233) || (c =? 8239) || (c =? 8287)
  || (c =? 12288).

Fixpoint lstrip (s : str) : str :=
  match s with
  | c :: s' => if is_space c then lstrip s' else s
  | [] => []
  end.

Definition rstrip (s : str) : str := rev (lstrip (rev s)).

(** [value.strip()] *)
Definition strip (s : str) : str := rstrip (lstrip s).

(** [value.split(sep)] for a one-character separator: never empty. *)
Fixpoint split (sep : N) (s : str) : list str :=
  match s with
  | [] => [[]]
  | c :: s' =>
      if c =? sep then [] :: split sep s'
      else match split sep s' with
           | w :: ws => (c :: w) :: ws
           | [] => [[c]]
           end
  end.

Definition comma : N := 44.

(** Truthiness of a string: non-empty. *)
Definition str_truthy (s : str) : bool :=
  match s with [] => false | _ :: _ => true end.

(** [_split_list]: [[v.strip() for v in value.split(",") if v.strip()]] *)
Definition _split_list (value : str) : list str :=
  map strip (List.filter (fun v => str_truthy (strip v)) (split comma value)).

(** [str.lower] restricted to ASCII letters, the instance used to run the
    engine on ASCII data. *)
Definition ascii_lower (s : str) : str :=
  map (fun c => if (65 <=? c) && (c <=? 90) then c + 32 else c) s.

(** What an f-string prints for [r.get(k)]: the string, or [None]. *)
Definition fmt (v : option str) : str := default (lit "None") v.

(** ** Naive datetimes *)

(** A [datetime]: its calendar fields, and the UTC offset when it is
    timezone-aware. *)
Record datetime := mk_datetime {
  year : Z; month : Z; day : Z;
  hour : Z; minute : Z; second : Z; microsecond : Z;
  tzinfo : option Z
}.

(** [d.replace(tzinfo=None)] *)
Definition replace_tzinfo_None (d : datetime) : datetime :=
  mk_datetime (year d) (month d) (day d) (hour d) (minute d) (second d)
              (microsecond d) None.

Definition dt_fields (d : datetime) : list Z :=
  [year d; month d; day d; hour d; minute d; second d; microsecond d].

Fixpoint lex_le (a b : list Z) : bool :=
  match a, b with
  | x :: a', y :: b' => ((x <? y) || ((x =? y) && lex_le a' b'))%Z
  | _, _ => true
  end.

(** [d1 <= d2] on naive datetimes: field by field, most significant first. *)
Definition dt_le (d1 d2 : datetime) : bool := lex_le (dt_fields d1) (dt_fields d2).

(** A calendar date at midnight. *)
Definition midnight (y m d : Z) : datetime := mk_datetime y m d 0 0 0 0 None.

Definition digit (c : N) : option Z :=
  if (48 <=? c) && (c <=? 57) then Some (Z.of_N (c - 48)) else None.

Definition is_leap (y : Z) : bool :=
  ((y mod 4 =? 0) && (negb (y mod 100 =? 0) || (y mod 400 =? 0)))%Z.

Definition days_in_month (y m : Z) : Z :=
  (if m =? 2 then (if is_leap y then 29 else 28)
   else if (m =? 4) || (m =? 6) || (m =? 9) || (m =? 11) then 30 else 31)%Z.

(** [DATE_FMT] *)
Definition DATE_FMT : str := lit "%Y-%m-%d".

(** The date parser on the format [DATE_FMT] of the source:
    four digits, a hyphen, two digits, a hyphen, two digits, naming a date
    of the calendar.  This is the instance of [dateutil.parser.parse] used
    to run the engine; anything else is a parse error here. *)
Definition iso_parse (s : str) : option datetime :=
  match s with
  | [y1; y2; y3; y4; h1; m1; m2; h2; d1; d2] =>
      if (h1 =? 45) && (h2 =? 45) then
        a ← digit y1; b ← digit y2; c ← digit y3; d ← digit y4;
        e ← digit m1; f ← digit m2; g ← digit d1; h ← digit d2;
        let y := (1000 * a + 100 * b + 10 * c + d)%Z in
        let m := (10 * e + f)%Z in
        let dd := (10 * g + h)%Z in
        if ((1 <=? y) && (1 <=? m) && (m <=? 12) && (1 <=? dd)
            && (dd <=? days_in_month y m))%Z
        then Some (midnight y m dd) else None
      else None
  | _ => None
  end.

(** ** Exceptions *)

Inductive exn :=
| KeyError (key : string)
| ParserError (value : str).

Inductive result (A : Type) :=
| Ok (a : A)
| Raise (e : exn).
Arguments Ok {A} a.
Arguments Raise {A} e.

#[global] Instance result_ret : MRet result := fun A a => Ok a.
#[global] Instance result_bind : MBind result := fun A B f m =>
  match m with Ok a => f a | Raise e => Raise e end.

(** A loop whose body may raise, threading the loop's local state. *)
Fixpoint foldM {A B : Type} (body : B -> A -> result B) (acc : B) (l : list A)
  : result B :=
  match l with
  | [] => Ok acc
  | x :: l' => acc' ← body acc x; foldM body acc' l'
  end.

(** ** Records *)

Abbreviation record := (gmap string str).

(** [r.get(k, d)] *)
Definition get_d (r : record) (k : string) (d : str) : str := default d (r !! k).

(** [r[k]] *)
Definition index (r : record) (k : string) : result str :=
  match r !! k with
  | Some v => Ok v
  | None => Raise (KeyError k)
  end.

(** Truthiness of a dict-or-None: present and non-empty. *)
Definition rec_truthy (o : option record) : bool :=
  match o with
  | Some r => negb (bool_decide (r = ∅))
  | None => false
  end.

(** Truthiness of a string-or-None. *)
Definition opt_truthy (o : option str) : bool :=
  match o with
  | Some s => str_truthy s
  | None => false
  end.

(** [next((m for m in missions if m.get("project_id") == key), None)] *)
Definition next_mission (missions : list record) (key : option str) : option record :=
  List.find (fun m => bool_decide (m !! "project_id"%string = key)) missions.

(** [SKILL_TO_CAPABILITY] *)
Definition SKILL_TO_CAPABILITY : list (str * str) :=
  [ (lit "Mapping", lit "RGB");
    (lit "Survey", lit "RGB");
    (lit "Inspection", lit "RGB");
    (lit "Thermal", lit "Thermal") ].

(** [table.get(k, d)] on a dict literal with distinct keys *)
Definition table_get (table : list (str * str)) (k d : str) : str :=
  match List.find (fun kv => bool_decide (kv.1 = k)) table with
  | Some kv => kv.2
  | None => d
  end.

(** The spellings of an empty assignment: the empty string, a hyphen, an
    en-dash (U+2013) and the three code points U+00E2 U+20AC U+2013. *)
Definition empty_spellings : list str :=
  [ []; lit "-"; [0x2013]; [0xE2; 0x20AC; 0x2013] ].

(** [_is_empty_assignment] *)
Definition _is_empty_assignment (value : option str) : bool :=
  match value with
  | None => true
  | Some v => bool_decide (strip v ∈ empty_spellings)
  end.

(** [if o:] on a dict-or-None: the dict when the test succeeds. *)
Definition if_truthy (o : option record) : option record :=
  if rec_truthy o then o else None.

Record AssignmentRecommendation := mk_rec {
  pilot : option record;
  drone : option record;
  issues : list str
}.

Local Open Scope string_scope.
Local Open Scope list_scope.

(** ** Substrings and words *)

(** [s.startswith(p)] *)
Fixpoint is_prefix (p s : str) : bool :=
  match p, s with
  | [], _ => true
  | a :: p', b :: s' => N.eqb a b && is_prefix p' s'
  | _ :: _, [] => false
  end.

(** [needle in haystack] on strings *)
Fixpoint is_infix (needle haystack : str) : bool :=
  is_prefix needle haystack
  || match haystack with
     | [] => false
     | _ :: haystack' => is_infix needle haystack'
     end.

(** The class [[a-zA-Z]] of a regular expression. *)
Definition is_ascii_letter (c : N) : bool :=
  (((65 <=? c) && (c <=? 90)) || ((97 <=? c) && (c <=? 122)))%N.

(** [re.findall(r"[a-zA-Z]+", s)]: the maximal runs of ASCII letters, from
    left to right. *)
Fixpoint findall_letters (s : str) : list str :=
  match s with
  | [] => []
  | c :: s' =>
      if is_ascii_letter c then
        match s' with
        | c' :: _ =>
            if is_ascii_letter c' then
              match findall_letters s' with
              | run :: rest => (c :: run) :: rest
              | [] => [[c]]
              end
            else [c] :: findall_letters s'
        | [] => [[c]]
        end
      else findall_letters s'
  end.

(** ** The command layer: updates in memory ([src/agent.py]) *)

(** [e["current_assignment"] = proj; e["status"] = "Assigned"] *)
Definition assign_to_project (proj : str) (e : record) : record :=
  <["status" := lit "Assigned"]> (<["current_assignment" := proj]> e).

(** The update loop of the "assign" command, run when [chosen] is truthy:
    [for e in entities: if e.get(key) == chosen.get(key): <assign>;
    updated = True].  The entities are updated in place; the result is the
    list afterwards, with the flag. *)
Definition mark_assigned (key : string) (chosen : option record) (proj : str)
    (entities : list record) (updated : bool) : list record * bool :=
  match if_truthy chosen with
  | Some c =>
      fold_left (fun st e =>
                   if bool_decide (e !! key = c !! key)
                   then (st.1 ++ [assign_to_project proj e], true)
                   else (st.1 ++ [e], st.2))
                entities ([], updated)
  | None => (entities, updated)
  end.

(** [not assignment or assignment in {"–", "â€–", "-"}], the test of the
    pilot-assignment query. *)
Definition reads_unassigned (assignment : option str) : bool :=
  match assignment with
  | None => true
  | Some a =>
      negb (str_truthy a)
      || bool_decide (a ∈ [ [0x2013%N]; [0xE2%N; 0x20AC%N; 0x2013%N]; lit "-" ])
  end.

(** A drone under maintenance that still holds an assignment. *)
Definition grounded_drone : record :=
  list_to_map [ ("drone_id", lit "D003"); ("model", lit "DJI M30");
                ("capabilities", lit "RGB"); ("status", lit "Maintenance");
                ("location", lit "Mumbai"); ("current_assignment", lit "PRJ002") ].

(** ** The words of the eligibility rule *)

(** No white space at the start, at the end. *)
Definition starts_clean (s : str) : Prop :=
  forall c t, s = c :: t -> is_space c = false.
Definition ends_clean (s : str) : Prop :=
  forall t c, s = t ++ [c] -> is_space c = false.

(** [core] is [s] with the white space at both ends taken away. *)
Definition trimmed_of (s core : str) : Prop :=
  exists ws1 ws2,
    s = ws1 ++ core ++ ws2
    /\ forallb is_space ws1 = true /\ forallb is_space ws2 = true
    /\ starts_clean core /\ ends_clean core.

(** [entry] is one of the comma-separated entries of [field]: it holds no
    comma, and in [field] it is bounded on each side by a comma or by the
    end of the field. *)
Definition comma_entry (field entry : str) : Prop :=
  (comma ∉ entry)
  /\ exists before after,
       field = before ++ entry ++ after
       /\ (before = [] \/ exists b, before = b ++ [comma])
       /\ (after = [] \/ exists a, after = comma :: a).

(** [m] is the first mission of the list whose project id is [id]. *)
Definition first_with_id (missions : list record) (id : str) (m : record) : Prop :=
  exists before after,
    missions = before ++ m :: after
    /\ m !! "project_id" = Some id
    /\ forall m', m' ∈ before -> m' !! "project_id" <> Some id.

(** [",".join(l)] *)
Fixpoint join_comma (l : list str) : str :=
  match l with
  | [] => []
  | x :: rest =>
      match rest with
      | [] => x
      | _ :: _ => x ++ comma :: join_comma rest
      end
  end.

(** ** A sample fleet

    Two pilots, two drones and three missions, used to run the engine. *)

Definition arjun : record :=
  list_to_map [ ("pilot_id", lit "P001"); ("name", lit "Arjun");
                ("skills", lit "Mapping, Survey"); ("certifications", lit "DGCA, Night Ops");
                ("location", lit "Mumbai"); ("status", lit "Available");
                ("current_assignment", [32; 0x2013; 32]) ].

Definition neha : record :=
  list_to_map [ ("pilot_id", lit "P002"); ("name", lit "Neha");
                ("skills", lit "Mapping"); ("certifications", lit "DGCA");
                ("location", lit "mumbai"); ("status", lit "available");
                ("current_assignment", lit "PRJ002") ].

Definition rohit : record :=
  list_to_map [ ("pilot_id", lit "P003"); ("name", lit "Rohit");
                ("skills", lit "Mapping"); ("certifications", lit "DGCA");
                ("location", lit "Mumbai"); ("status", lit "Available");
                ("current_assignment", lit "PRJ003") ].

Definition drone_a : record :=
  list_to_map [ ("drone_id", lit "D001"); ("model", lit "DJI M300");
                ("capabilities", lit "Thermal"); ("status", lit "Available");
                ("location", lit "Mumbai"); ("current_assignment", lit "-") ].

Definition drone_b : record :=
  list_to_map [ ("drone_id", lit "D002"); ("model", lit "DJI Mavic 3");
                ("capabilities", lit "RGB, Thermal"); ("status", lit "Available");
                ("location", lit "Mumbai"); ("current_assignment", lit "") ].

Definition prj001 : record :=
  list_to_map [ ("project_id", lit "PRJ001"); ("client", lit "Client A");
                ("location", lit "Mumbai"); ("required_skills", lit "Mapping");
                ("required_certs", lit "DGCA");
                ("start_date", lit "2024-01-01"); ("end_date", lit "2024-01-10");
                ("priority", lit "Urgent") ].

Definition prj002 : record :=
  list_to_map [ ("project_id", lit "PRJ002"); ("client", lit "Client B");
                ("location", lit "Mumbai"); ("required_skills", lit "Mapping");
                ("required_certs", lit "DGCA");
                ("start_date", lit "2024-01-05"); ("end_date", lit "2024-01-15");
                ("priority", lit "Low") ].

Definition prj003 : record :=
  list_to_map [ ("project_id", lit "PRJ003"); ("client", lit "Client C");
                ("location", lit "Mumbai"); ("required_skills", lit "Mapping");
                ("required_certs", lit "DGCA");
                ("start_date", lit "2024-01-11"); ("end_date", lit "2024-01-20");
                ("priority", lit "Standard") ].

(** A mission row that lost its "project_id" column. *)
Definition no_id_mission : record :=
  list_to_map [ ("location", lit "Pune"); ("priority", lit "Urgent") ].

(** A mission row that lost its "start_date" column. *)
Definition no_start_mission : record :=
  list_to_map [ ("project_id", lit "PRJ002"); ("location", lit "Mumbai");
                ("required_skills", lit "Mapping"); ("required_certs", lit "DGCA");
                ("end_date", lit "2024-01-15"); ("priority", lit "Low") ].

(** ** The engine *)

Section Engine.

(** [str.lower] *)
Variable str_lower : str -> str.
(** [dateutil.parser.parse]; [None] when it raises. *)
Variable parse_date : str -> option datetime.

(** [_date] *)
Definition _date (value : str) : result datetime :=
  match parse_date value with
  | Some d => Ok (replace_tzinfo_None d)
  | None => Raise (ParserError value)
  end.

(** [_overlaps]: [and] evaluates its right operand only when the left
    one holds. *)
Definition _overlaps (a_start a_end b_start b_end : str) : result bool :=
  d1 ← _date a_start;
  d2 ← _date b_end;
  if dt_le d1 d2 then
    d3 ← _date b_start;
    d4 ← _date a_end;
    Ok (dt_le d3 d4)
  else Ok false.

(** [normalize_text] *)
Definition normalize_text (value : str) : str := strip (str_lower value).

(** [[s.lower() for s in _split_list(r.get(field, ""))]] *)
Definition lowered_list (r : record) (field : string) : list str :=
  map str_lower (_split_list (get_d r field [])).

(** [normalize_text(r.get("status", "")) != "available"], negated *)
Definition is_available (r : record) : bool :=
  bool_decide (normalize_text (get_d r "status" []) = lit "available").

(** [if tag: ... if tag.lower() not in <list>: continue] *)
Definition tag_rejects (tag : option str) (r : record) (field : string) : bool :=
  match tag with
  | Some t => str_truthy t && negb (bool_decide (str_lower t ∈ lowered_list r field))
  | None => false
  end.

(** [if location and normalize_text(r.get("location", "")) != location.lower(): continue] *)
Definition location_rejects (location : option str) (r : record) : bool :=
  match location with
  | Some l => str_truthy l
              && negb (bool_decide (normalize_text (get_d r "location" []) = str_lower l))
  | None => false
  end.

(** [filter_pilots] *)
Definition filter_pilots (pilots : list record) (skill cert location : option str)
    (available_only : bool) : list record :=
  fold_left (fun results p =>
    if available_only && negb (is_available p) then results
    else if tag_rejects skill p "skills" then results
    else if tag_rejects cert p "certifications" then results
    else if location_rejects location p then results
    else results ++ [p]) pilots [].

(** [filter_drones] *)
Definition filter_drones (drones : list record) (capability location : option str)
    (available_only : bool) : list record :=
  fold_left (fun results d =>
    if available_only && negb (is_available d) then results
    else if tag_rejects capability d "capabilities" then results
    else if location_rejects location d then results
    else results ++ [d]) drones [].

(** The body of the pilot loop of [recommend_assignment]; [continue]
    returns the list unchanged. *)
Definition pilot_step (missions : list record)
    (required_skill required_cert location start end_ : str)
    (eligible_pilots : list record) (p : record) : result (list record) :=
  if negb (is_available p) then Ok eligible_pilots
  else if negb (bool_decide (normalize_text (get_d p "location" []) = normalize_text location))
  then Ok eligible_pilots
  else if negb (bool_decide (normalize_text required_skill ∈ lowered_list p "skills"))
  then Ok eligible_pilots
  else if negb (bool_decide (normalize_text required_cert ∈ lowered_list p "certifications"))
  then Ok eligible_pilots
  else if negb (_is_empty_assignment (p !! "current_assignment")) then
    match if_truthy (next_mission missions (p !! "current_assignment")) with
    | Some assigned =>
        s ← index assigned "start_date";
        e ← index assigned "end_date";
        ov ← _overlaps start end_ s e;
        if ov : bool then Ok eligible_pilots else Ok (eligible_pilots ++ [p])
    | None => Ok (eligible_pilots ++ [p])
    end
  else Ok (eligible_pilots ++ [p]).

(** The first loop of [recommend_assignment]: the eligible pilots. *)
Definition eligible_pilots_loop (missions : list record)
    (required_skill required_cert location start end_ : str)
    (pilots : list record) : result (list record) :=
  foldM (pilot_step missions required_skill required_cert location start end_)
        [] pilots.

Definition no_pilot_issue : str :=
  lit "No available pilot meets skill, cert, and location requirements.".
Definition no_drone_issue : str :=
  lit "No available drone matches capability and location requirements.".

(** [recommend_assignment] *)
Definition recommend_assignment (project_id : str)
    (pilots drones missions : list record) : result AssignmentRecommendation :=
  match if_truthy (next_mission missions (Some project_id)) with
  | None => Ok (mk_rec None None [lit "Unknown project: " ++ project_id])
  | Some mission =>
      let required_skill := get_d mission "required_skills" [] in
      let required_cert := get_d mission "required_certs" [] in
      let location := get_d mission "location" [] in
      let start := get_d mission "start_date" [] in
      let end_ := get_d mission "end_date" [] in
      eligible_pilots ←
        eligible_pilots_loop missions required_skill required_cert location
                             start end_ pilots;
      let required_capability := table_get SKILL_TO_CAPABILITY required_skill (lit "RGB") in
      let eligible_drones :=
        filter_drones drones (Some required_capability) (Some location) true in
      let issues := [] in
      let issues :=
        if negb (bool_decide (eligible_pilots = [])) then issues
        else issues ++ [no_pilot_issue] in
      let issues :=
        if negb (bool_decide (eligible_drones = [])) then issues
        else issues ++ [no_drone_issue] in
      Ok (mk_rec (head eligible_pilots) (head eligible_drones) issues)
  end.

(** *** Conflict detector *)

(** [{m["project_id"]: m for m in missions}]: a later mission replaces an
    earlier one with the same id. *)
Definition build_mission_map (missions : list record) : result (gmap str record) :=
  foldM (fun mission_map m =>
           k ← index m "project_id";
           Ok (<[k := m]> mission_map)) ∅ missions.

(** [mission_map.get(assignment)] *)
Definition map_get (mission_map : gmap str record) (assignment : option str)
  : option record :=
  match assignment with
  | Some a => mission_map !! a
  | None => None
  end.

Definition required_cap (mission : record) : str :=
  str_lower (table_get SKILL_TO_CAPABILITY (get_d mission "required_skills" []) (lit "RGB")).

(** Body of the first loop: pilot assignment conflicts. *)
Definition pilot_integrity_body (mission_map : gmap str record)
    (conflicts : list str) (p : record) : list str :=
  let assignment := p !! "current_assignment" in
  if negb (_is_empty_assignment assignment) then
    match if_truthy (map_get mission_map assignment) with
    | None =>
        conflicts ++ [lit "Pilot " ++ fmt (p !! "name")
                      ++ lit " assigned to unknown mission " ++ fmt assignment ++ lit "."]
    | Some mission =>
        let conflicts :=
          if negb (bool_decide (normalize_text (get_d mission "required_skills" [])
                                ∈ lowered_list p "skills"))
          then conflicts ++ [lit "Pilot " ++ fmt (p !! "name")
                             ++ lit " lacks required skill for " ++ fmt assignment ++ lit "."]
          else conflicts in
        let conflicts :=
          if negb (bool_decide (normalize_text (get_d mission "required_certs" [])
                                ∈ lowered_list p "certifications"))
          then conflicts ++ [lit "Pilot " ++ fmt (p !! "name")
                             ++ lit " lacks required certs for " ++ fmt assignment ++ lit "."]
          else conflicts in
        if negb (bool_decide (normalize_text (get_d p "location" [])
                              = normalize_text (get_d mission "location" [])))
        then conflicts ++ [lit "Pilot " ++ fmt (p !! "name")
                           ++ lit " location mismatch for " ++ fmt assignment ++ lit "."]
        else conflicts
    end
  else conflicts.

(** Body of the second loop: drone assignment conflicts. *)
Definition drone_integrity_body (mission_map : gmap str record)
    (conflicts : list str) (d : record) : list str :=
  let assignment := d !! "current_assignment" in
  if negb (_is_empty_assignment assignment) then
    match if_truthy (map_get mission_map assignment) with
    | None =>
        conflicts ++ [lit "Drone " ++ fmt (d !! "drone_id")
                      ++ lit " assigned to unknown mission " ++ fmt assignment ++ lit "."]
    | Some mission =>
        let conflicts :=
          if bool_decide (normalize_text (get_d d "status" []) = lit "maintenance")
          then conflicts ++ [lit "Drone " ++ fmt (d !! "drone_id")
                             ++ lit " is in maintenance but assigned to "
                             ++ fmt assignment ++ lit "."]
          else conflicts in
        let conflicts :=
          if negb (bool_decide (normalize_text (get_d d "location" [])
                                = normalize_text (get_d mission "location" [])))
          then conflicts ++ [lit "Drone " ++ fmt (d !! "drone_id")
                             ++ lit " location mismatch for " ++ fmt assignment ++ lit "."]
          else conflicts in
        if negb (bool_decide (required_cap mission ∈ lowered_list d "capabilities"))
        then conflicts ++ [lit "Drone " ++ fmt (d !! "drone_id")
                           ++ lit " lacks capability for " ++ fmt assignment ++ lit "."]
        else conflicts
    end
  else conflicts.

(** The inner loop of the third phase, [for m2 in missions], which stops
    at the first overlapping mission. *)
Fixpoint overlap_scan (conflicts : list str) (p : record) (assignment : option str)
    (m1 : record) (ms : list record) : result (list str) :=
  match ms with
  | [] => Ok conflicts
  | m2 :: ms' =>
      id2 ← index m2 "project_id";
      id1 ← index m1 "project_id";
      if bool_decide (id2 = id1) then overlap_scan conflicts p assignment m1 ms'
      else
        s1 ← index m1 "start_date";
        e1 ← index m1 "end_date";
        s2 ← index m2 "start_date";
        e2 ← index m2 "end_date";
        ov ← _overlaps s1 e1 s2 e2;
        if ov : bool then
          id1' ← index m1 "project_id";
          if bool_decide (assignment = Some id1') then
            id2' ← index m2 "project_id";
            Ok (conflicts ++ [lit "Pilot " ++ fmt (p !! "name") ++ lit " assigned to "
                              ++ fmt assignment ++ lit " overlaps with " ++ id2' ++ lit "."])
          else Ok conflicts
        else overlap_scan conflicts p assignment m1 ms'
  end.

(** Body of the third loop: overlapping pilot assignments. *)
Definition overlap_body (mission_map : gmap str record) (missions : list record)
    (conflicts : list str) (p : record) : result (list str) :=
  let assignment := p !! "current_assignment" in
  if _is_empty_assignment assignment then Ok conflicts
  else
    match if_truthy (map_get mission_map assignment) with
    | None => Ok conflicts
    | Some m1 => overlap_scan conflicts p assignment m1 missions
    end.

(** [{d.get("current_assignment"): d for d in drones if d.get("current_assignment")}] *)
Definition build_drone_by_assignment (drones : list record) : gmap str record :=
  fold_left (fun dba d =>
               match d !! "current_assignment" with
               | Some a => if str_truthy a then <[a := d]> dba else dba
               | None => dba
               end) drones ∅.

(** Body of the fourth loop: pilot and drone in different locations. *)
Definition colocation_body (drone_by_assignment : gmap str record)
    (conflicts : list str) (p : record) : list str :=
  let assignment := p !! "current_assignment" in
  if negb (_is_empty_assignment assignment) then
    match map_get drone_by_assignment assignment with
    | Some d =>
        if negb (bool_decide (normalize_text (get_d p "location" [])
                              = normalize_text (get_d d "location" [])))
        then conflicts ++ [lit "Pilot " ++ fmt (p !! "name") ++ lit " and drone "
                           ++ fmt (d !! "drone_id")
                           ++ lit " are in different locations for "
                           ++ fmt assignment ++ lit "."]
        else conflicts
    | None => conflicts
    end
  else conflicts.

(** [detect_conflicts]: the four loops run in sequence over one list. *)
Definition detect_conflicts (pilots drones missions : list record)
  : result (list str) :=
  let conflicts := [] in
  mission_map ← build_mission_map missions;
  let conflicts := fold_left (pilot_integrity_body mission_map) pilots conflicts in
  let conflicts := fold_left (drone_integrity_body mission_map) drones conflicts in
  conflicts ← foldM (overlap_body mission_map missions) conflicts pilots;
  let drone_by_assignment := build_drone_by_assignment drones in
  let conflicts := fold_left (colocation_body drone_by_assignment) pilots conflicts in
  Ok conflicts.

(** *** Urgent reassignment planner *)

Definition has_priority (names : list str) (m : record) : bool :=
  bool_decide (normalize_text (get_d m "priority" []) ∈ names).

(** [for p in pilots: if p.get("current_assignment") == lm["project_id"]:
    candidate = p; break] *)
Fixpoint pilot_scan (candidate : option record) (lm : record) (ps : list record)
  : result (option record) :=
  match ps with
  | [] => Ok candidate
  | p :: ps' =>
      k ← index lm "project_id";
      if bool_decide (p !! "current_assignment" = Some k) then Ok (Some p)
      else pilot_scan candidate lm ps'
  end.

(** [for lm in lower: <pilot_scan>; if candidate: break] *)
Fixpoint lower_scan (candidate : option record) (lower : list record)
    (pilots : list record) : result (option record) :=
  match lower with
  | [] => Ok candidate
  | lm :: lower' =>
      candidate' ← pilot_scan candidate lm pilots;
      if rec_truthy candidate' then Ok candidate'
      else lower_scan candidate' lower' pilots
  end.

Definition reassign_msg (candidate : record) (target : str) : str :=
  lit "Consider reassigning pilot " ++ fmt (candidate !! "name") ++ lit " from "
  ++ fmt (candidate !! "current_assignment") ++ lit " to urgent mission "
  ++ target ++ lit ".".

Definition no_reassign_msg (target : str) : str :=
  lit "No reassignable pilots found for urgent mission " ++ target ++ lit ".".

(** [rec.pilot and rec.drone and not rec.issues] *)
Definition coverable (rec : AssignmentRecommendation) : bool :=
  rec_truthy (pilot rec) && rec_truthy (drone rec) && bool_decide (issues rec = []).

(** Body of the planner's loop over the urgent missions. *)
Definition plan_body (missions pilots drones : list record)
    (recommendations : list str) (m : record) : result (list str) :=
  pid ← index m "project_id";
  rec ← recommend_assignment pid pilots drones missions;
  if coverable rec then Ok recommendations
  else
    let lower := List.filter (has_priority [lit "standard"; lit "low"]) missions in
    candidate ← lower_scan None lower pilots;
    match if_truthy candidate with
    | Some c =>
        target ← index m "project_id";
        Ok (recommendations ++ [reassign_msg c target])
    | None =>
        target ← index m "project_id";
        Ok (recommendations ++ [no_reassign_msg target])
    end.

(** [urgent_reassignment_plan] *)
Definition urgent_reassignment_plan (missions pilots drones : list record)
  : result (list str) :=
  let urgent := List.filter (has_priority [lit "urgent"; lit "high"]) missions in
  if bool_decide (urgent = []) then Ok [lit "No urgent or high-priority missions found."]
  else foldM (plan_body missions pilots drones) [] urgent.

(** ** Specifications *)

(** An optional tag, when provided, is a case-insensitive member of the
    record's comma-separated field. *)
Definition tag_accepts (tag : option str) (r : record) (field : string) : bool :=
  match tag with
  | Some t => if str_truthy t then bool_decide (str_lower t ∈ lowered_list r field)
              else true
  | None => true
  end.

(** An optional location, when provided, equals the record's location
    case-insensitively. *)
Definition location_accepts (location : option str) (r : record) : bool :=
  match location with
  | Some l => if str_truthy l
              then bool_decide (normalize_text (get_d r "location" []) = str_lower l)
              else true
  | None => true
  end.

(** A pilot satisfies every provided predicate of [filter_pilots]. *)
Definition pilot_matches (skill cert location : option str) (available_only : bool)
    (p : record) : bool :=
  implb available_only (is_available p)
  && tag_accepts skill p "skills"
  && tag_accepts cert p "certifications"
  && location_accepts location p.

(** A drone satisfies every provided predicate of [filter_drones]. *)
Definition drone_matches (capability location : option str) (available_only : bool)
    (d : record) : bool :=
  implb available_only (is_available d)
  && tag_accepts capability d "capabilities"
  && location_accepts location d.

(** The date a mission field denotes, a missing field read as the empty
    string. *)
Definition date_field (m : record) (field : string) : option datetime :=
  d ← parse_date (get_d m field []); Some (replace_tzinfo_None d).

(** Two missions' date ranges overlap: both ranges are dated,
    [startA <= endB] and [startB <= endA]. *)
Definition ranges_overlap (a b : record) : Prop :=
  exists sa ea sb eb,
    date_field a "start_date" = Some sa /\ date_field a "end_date" = Some ea
    /\ date_field b "start_date" = Some sb /\ date_field b "end_date" = Some eb
    /\ dt_le sa eb = true /\ dt_le sb ea = true.

(** The pilot holds a non-empty current assignment that references an
    existing mission whose date range overlaps that of [mission]. *)
Definition temporal_conflict (missions : list record) (mission p : record) : Prop :=
  exists a assigned,
    p !! "current_assignment" = Some a
    /\ (strip a ∉ empty_spellings)
    /\ next_mission missions (Some a) = Some assigned
    /\ ranges_overlap mission assigned.

(** Eligibility of a pilot for a mission, as the specification words it. *)
Definition pilot_eligible (missions : list record) (mission p : record) : Prop :=
  normalize_text (get_d p "status" []) = lit "available"
  /\ normalize_text (get_d p "location" []) = normalize_text (get_d mission "location" [])
  /\ normalize_text (get_d mission "required_skills" []) ∈ lowered_list p "skills"
  /\ normalize_text (get_d mission "required_certs" []) ∈ lowered_list p "certifications"
  /\ ~ temporal_conflict missions mission p.

(** The same, as decision procedures. *)
Definition ranges_overlap_b (a b : record) : bool :=
  match date_field a "start_date", date_field a "end_date",
        date_field b "start_date", date_field b "end_date" with
  | Some sa, Some ea, Some sb, Some eb => dt_le sa eb && dt_le sb ea
  | _, _, _, _ => false
  end.

Definition temporal_conflict_b (missions : list record) (mission p : record) : bool :=
  match p !! "current_assignment" with
  | Some a =>
      negb (bool_decide (strip a ∈ empty_spellings))
      && match next_mission missions (Some a) with
         | Some assigned => ranges_overlap_b mission assigned
         | None => false
         end
  | None => false
  end.

Definition pilot_eligible_b (missions : list record) (mission p : record) : bool :=
  is_available p
  && bool_decide (normalize_text (get_d p "location" [])
                  = normalize_text (get_d mission "location" []))
  && bool_decide (normalize_text (get_d mission "required_skills" [])
                  ∈ lowered_list p "skills")
  && bool_decide (normalize_text (get_d mission "required_certs" [])
                  ∈ lowered_list p "certifications")
  && negb (temporal_conflict_b missions mission p).

(** The capability [recommend_assignment] derives from a mission. *)
Definition derived_capability (mission : record) : str :=
  table_get SKILL_TO_CAPABILITY (get_d mission "required_skills" []) (lit "RGB").

(** A drone passes the availability filter for a mission. *)
Definition passes_drone_filter (mission d : record) : Prop :=
  filter_drones [d] (Some (derived_capability mission))
                (Some (get_d mission "location" [])) true = [d].

(** [o] is the first element of [l], in the order of [l], that satisfies
    [P]; it is [None] when no element does. *)
Definition first_such {A : Type} (P : A -> Prop) (l : list A) (o : option A) : Prop :=
  match o with
  | Some x => exists before after,
                l = before ++ x :: after /\ P x /\ forall y, y ∈ before -> ~ P y
  | None => forall y, y ∈ l -> ~ P y
  end.

(** Every mission carries both dates, and both parse. *)
Definition dates_ok (m : record) : bool :=
  match m !! "start_date", m !! "end_date" with
  | Some s, Some e =>
      match parse_date s, parse_date e with
      | Some _, Some _ => true
      | _, _ => false
      end
  | _, _ => false
  end.









Definition has_project_id (m : record) : bool :=
  match m !! "project_id" with Some _ => true | None => false end.

(** The body of the recommender's pilot loop, for a found mission. *)
Definition mission_pilot_step (missions : list record) (mission : record)
  : list record -> record -> result (list record) :=
  pilot_step missions
    (get_d mission "required_skills" []) (get_d mission "required_certs" [])
    (get_d mission "location" [])
    (get_d mission "start_date" []) (get_d mission "end_date" []).

(** *** The command layer: reading a request ([src/agent.py]) *)

(** [_extract_status]: the first status of the list whose lower-cased
    name occurs in the lower-cased text. *)
Definition _extract_status (text : str) : option str :=
  List.find (fun status => is_infix (str_lower status) (str_lower text))
            [lit "Available"; lit "On Leave"; lit "Unavailable"; lit "Assigned";
             lit "Maintenance"].

(** [str(p.get("name", "")).strip().lower()] *)
Definition pilot_name (p : record) : str := str_lower (strip (get_d p "name" [])).

(** [_extract_pilot_by_name]: the first pilot whose name is a whole word of
    the text, else the first pilot whose name occurs in the text. *)
Definition _extract_pilot_by_name (text : str) (pilots : list record) : option record :=
  let lower := str_lower text in
  let tokens := findall_letters lower in
  let exact_matches :=
    fold_left (fun exact_matches p =>
                 let name := pilot_name p in
                 if negb (str_truthy name) then exact_matches
                 else if bool_decide (name ∈ tokens) then exact_matches ++ [p]
                 else exact_matches) pilots [] in
  match exact_matches with
  | p :: _ => Some p
  | [] => List.find (fun p => let name := pilot_name p in
                              str_truthy name && is_infix name lower) pilots
  end.

(** [_mentions_pilot_name] *)
Definition _mentions_pilot_name (text : str) (pilots : list record) : bool :=
  let lower := str_lower text in
  existsb (fun p => let name := pilot_name p in
                    str_truthy name && is_infix name lower) pilots.

(** *** Errors *)

(** An error of the date check: a mission without "start_date" or
    "end_date", or a date that does not parse. *)
Definition date_error (e : exn) : Prop :=
  e = KeyError "start_date" \/ e = KeyError "end_date" \/ exists v, e = ParserError v.

(** *** Eligibility, in the words of the specification *)

(** [t] is [s] lower-cased, without surrounding white space: two strings
    with the same [t] are equal case-insensitively. *)
Definition folded (s t : str) : Prop := trimmed_of (str_lower s) t.

(** [tag] is, case-insensitively, a member of the comma-separated set
    [field]: some non-blank entry of [field], trimmed and lower-cased, is
    the tag lower-cased and trimmed. *)
Definition has_tag (tag field : str) : Prop :=
  exists entry core,
    comma_entry field entry /\ trimmed_of entry core /\ core <> []
    /\ folded tag (str_lower core).

(** The assignment reads as one of the four empty spellings once
    trimmed. *)
Definition unassigned_spelling (a : str) : Prop :=
  exists core,
    trimmed_of a core
    /\ (core = [] \/ core = lit "-" \/ core = [0x2013%N]
        \/ core = [0xE2%N; 0x20AC%N; 0x2013%N]).

(** The pilot holds a non-empty current assignment that refers to an
    existing mission whose date range overlaps that of [mission]. *)
Definition holds_overlapping_assignment (missions : list record) (mission p : record)
  : Prop :=
  exists a assigned,
    p !! "current_assignment" = Some a
    /\ ~ unassigned_spelling a
    /\ first_with_id missions a assigned
    /\ ranges_overlap mission assigned.

(** The five conditions of eligibility. *)
Definition pilot_qualifies (missions : list record) (mission p : record) : Prop :=
  folded (get_d p "status" []) (lit "available")
  /\ (exists t, folded (get_d p "location" []) t
                /\ folded (get_d mission "location" []) t)
  /\ has_tag (get_d mission "required_skills" []) (get_d p "skills" [])
  /\ has_tag (get_d mission "required_certs" []) (get_d p "certifications" [])
  /\ ~ holds_overlapping_assignment missions mission p.

(** ** Facts about the helpers *)

Lemma fold_left_select {A : Type} (f : list A -> A -> list A) (keep : A -> bool) :
  (forall acc x, f acc x = if keep x then acc ++ [x] else acc) ->
  forall l acc, fold_left f l acc = acc ++ List.filter keep l.
Proof.
  intros Hf l. induction l as [|x l IH]; intros acc; simpl.
  - by rewrite app_nil_r.
  - rewrite IH, Hf. destruct (keep x); [|done].
    by rewrite <- app_assoc.
Qed.

Lemma filter_sublist {A : Type} (keep : A -> bool) (l : list A) :
  List.filter keep l `sublist_of` l.
Proof.
  induction l as [|x l IH]; simpl; [constructor|].
  destruct (keep x); by constructor.
Qed.


Lemma tag_rejects_accepts tag r field :
  tag_rejects tag r field = negb (tag_accepts tag r field).
Proof.
  destruct tag as [t|]; simpl; [|done].
  destruct (str_truthy t); simpl; [|done]. done.
Qed.

Lemma location_rejects_accepts location r :
  location_rejects location r = negb (location_accepts location r).
Proof.
  destruct location as [l|]; simpl; [|done].
  by destruct (str_truthy l).
Qed.

Lemma filter_pilots_filter pilots skill cert location available_only :
  filter_pilots pilots skill cert location available_only
  = List.filter (pilot_matches skill cert location available_only) pilots.
Proof.
  unfold filter_pilots.
  rewrite (fold_left_select _ (pilot_matches skill cert location available_only));
    [done|].
  intros acc p. unfold pilot_matches.
  rewrite !tag_rejects_accepts, location_rejects_accepts.
  destruct available_only, (is_available p); simpl;
    destruct (tag_accepts skill p "skills"),
             (tag_accepts cert p "certifications"),
             (location_accepts location p); reflexivity.
Qed.

Lemma filter_drones_filter drones capability location available_only :
  filter_drones drones capability location available_only
  = List.filter (drone_matches capability location available_only) drones.
Proof.
  unfold filter_drones.
  rewrite (fold_left_select _ (drone_matches capability location available_only));
    [done|].
  intros acc d. unfold drone_matches.
  rewrite tag_rejects_accepts, location_rejects_accepts.
  destruct available_only, (is_available d); simpl;
    destruct (tag_accepts capability d "capabilities"),
             (location_accepts location d); reflexivity.
Qed.


(** *** Dates and overlap *)

Lemma lex_le_refl (a : list Z) : lex_le a a = true.
Proof.
  induction a as [|x a IH]; simpl; [done|].
  by rewrite Z.eqb_refl, IH, orb_true_r.
Qed.

Lemma lex_le_total (a b : list Z) : lex_le a b = true \/ lex_le b a = true.
Proof.
  revert b. induction a as [|x a IH]; intros [|y b]; simpl; auto.
  destruct (Z.lt_trichotomy x y) as [Hlt|[->|Hgt]].
  - left. apply Z.ltb_lt in Hlt. by rewrite Hlt.
  - rewrite Z.eqb_refl, Z.ltb_irrefl. simpl. apply IH.
  - right. apply Z.ltb_lt in Hgt. by rewrite Hgt.
Qed.

(** The order on datetimes is inclusive: a date is not after itself. *)
Lemma dt_le_refl (d : datetime) : dt_le d d = true.
Proof. apply lex_le_refl. Qed.

Lemma dt_le_total (d1 d2 : datetime) : dt_le d1 d2 = true \/ dt_le d2 d1 = true.
Proof. apply lex_le_total. Qed.


Lemma overlaps_parsed a_start a_end b_start b_end sa ea sb eb :
  parse_date a_start = Some sa -> parse_date a_end = Some ea ->
  parse_date b_start = Some sb -> parse_date b_end = Some eb ->
  _overlaps a_start a_end b_start b_end
  = Ok (dt_le (replace_tzinfo_None sa) (replace_tzinfo_None eb)
        && dt_le (replace_tzinfo_None sb) (replace_tzinfo_None ea)).
Proof.
  intros Ha He Hb Hf. unfold _overlaps, _date. rewrite Ha, He, Hb, Hf. simpl.
  by destruct (dt_le _ _).
Qed.

Lemma date_inv value d :
  _date value = Ok d -> exists d0, parse_date value = Some d0 /\ d = replace_tzinfo_None d0.
Proof.
  unfold _date. destruct (parse_date value) as [d0|]; [|done].
  intros [= <-]. eauto.
Qed.

(** C4: when the four dates parse, [_overlaps] answers
    [startA <= endB and startB <= endA], the comparison being the
    inclusive order of datetimes. *)
Theorem overlaps_iff_both_le (a_start a_end b_start b_end : str)
    (sa ea sb eb : datetime) :
  _date a_start = Ok sa -> _date a_end = Ok ea ->
  _date b_start = Ok sb -> _date b_end = Ok eb ->
  _overlaps a_start a_end b_start b_end = Ok (dt_le sa eb && dt_le sb ea).
Proof.
  intros (a & Ha & ->)%date_inv (e & He & ->)%date_inv
         (b & Hb & ->)%date_inv (f & Hf & ->)%date_inv.
  by apply overlaps_parsed.
Qed.

Lemma overlaps_inv a_start a_end b_start b_end ov :
  _overlaps a_start a_end b_start b_end = Ok ov ->
  ov = match parse_date a_start, parse_date a_end,
             parse_date b_start, parse_date b_end with
       | Some sa, Some ea, Some sb, Some eb =>
           dt_le (replace_tzinfo_None sa) (replace_tzinfo_None eb)
           && dt_le (replace_tzinfo_None sb) (replace_tzinfo_None ea)
       | _, _, _, _ => false
       end.
Proof.
  unfold _overlaps, _date.
  destruct (parse_date a_start) as [sa|]; simpl; [|done].
  destruct (parse_date b_end) as [eb|]; simpl; [|done].
  destruct (dt_le _ _) eqn:Hle; simpl.
  - destruct (parse_date b_start) as [sb|]; simpl; [|done].
    destruct (parse_date a_end) as [ea|]; simpl; [|done].
    by intros [= <-].
  - intros [= <-].
    by destruct (parse_date a_end), (parse_date b_start).
Qed.

(** *** Mission lookup *)

Lemma next_mission_Some missions key m :
  next_mission missions key = Some m -> m ∈ missions /\ m !! "project_id" = key.
Proof.
  unfold next_mission. intros [Hin Hk]%find_some.
  split; [by apply list_elem_of_In|]. by apply bool_decide_eq_true in Hk.
Qed.

Lemma next_mission_None missions key :
  (forall m, m ∈ missions -> m !! "project_id" <> key) ->
  next_mission missions key = None.
Proof.
  intros H. unfold next_mission.
  destruct (List.find _ missions) as [m|] eqn:E; [|done].
  apply find_some in E as [Hin Hk]. apply bool_decide_eq_true in Hk.
  by apply list_elem_of_In, H in Hin.
Qed.

Lemma if_truthy_field (r : record) field v :
  r !! field = Some v -> if_truthy (Some r) = Some r.
Proof.
  intros H. unfold if_truthy, rec_truthy.
  rewrite bool_decide_eq_false_2; [done|].
  intros ->. by rewrite lookup_empty in H.
Qed.

Lemma next_mission_truthy missions k m :
  next_mission missions (Some k) = Some m ->
  if_truthy (next_mission missions (Some k)) = Some m.
Proof.
  intros H. rewrite H. apply next_mission_Some in H as [_ H].
  by eapply if_truthy_field.
Qed.

(** C6: a project id carried by no mission yields no pilot, no drone and
    the single issue "Unknown project: <id>". *)
Theorem recommend_unknown_project (project_id : str)
    (pilots drones missions : list record) :
  (forall m, m ∈ missions -> m !! "project_id" <> Some project_id) ->
  recommend_assignment project_id pilots drones missions
  = Ok (mk_rec None None [lit "Unknown project: " ++ project_id]).
Proof.
  intros H. unfold recommend_assignment.
  by rewrite (next_mission_None _ _ H).
Qed.

(** *** The pilot loop of the recommender *)

Lemma ranges_overlap_reflect a b :
  ranges_overlap_b a b = true <-> ranges_overlap a b.
Proof.
  unfold ranges_overlap_b, ranges_overlap. split.
  - destruct (date_field a "start_date") as [sa|]; [|done].
    destruct (date_field a "end_date") as [ea|]; [|done].
    destruct (date_field b "start_date") as [sb|]; [|done].
    destruct (date_field b "end_date") as [eb|]; [|done].
    intros [??]%andb_true_iff. by exists sa, ea, sb, eb.
  - intros (sa & ea & sb & eb & -> & -> & -> & -> & H1 & H2).
    by rewrite H1, H2.
Qed.

Lemma temporal_conflict_reflect missions mission p :
  temporal_conflict_b missions mission p = true <-> temporal_conflict missions mission p.
Proof.
  unfold temporal_conflict_b, temporal_conflict. split.
  - destruct (p !! "current_assignment") as [a|]; [|done].
    intros [Hne Hov]%andb_true_iff.
    apply negb_true_iff, bool_decide_eq_false in Hne.
    destruct (next_mission missions (Some a)) as [assigned|] eqn:E; [|done].
    exists a, assigned. repeat split; try done. by apply ranges_overlap_reflect.
  - intros (a & assigned & -> & Hne & -> & Hov).
    rewrite bool_decide_eq_false_2 by done.
    by apply ranges_overlap_reflect in Hov as ->.
Qed.

Lemma pilot_eligible_reflect missions mission p :
  pilot_eligible_b missions mission p = true <-> pilot_eligible missions mission p.
Proof.
  unfold pilot_eligible_b, pilot_eligible, is_available.
  rewrite !andb_true_iff, !bool_decide_eq_true, negb_true_iff.
  rewrite <- temporal_conflict_reflect, not_true_iff_false. tauto.
Qed.

Lemma foldM_select {A : Type} (f : list A -> A -> result (list A)) (keep : A -> bool) :
  (forall acc x acc', f acc x = Ok acc' -> acc' = if keep x then acc ++ [x] else acc) ->
  forall l acc out, foldM f acc l = Ok out -> out = acc ++ List.filter keep l.
Proof.
  intros Hf l. induction l as [|x l IH]; intros acc out; simpl.
  - intros [= <-]. by rewrite app_nil_r.
  - destruct (f acc x) as [acc'|e] eqn:E; simpl; [|done].
    intros ->%IH. rewrite (Hf _ _ _ E).
    destruct (keep x); [|done]. by rewrite <- app_assoc.
Qed.

Lemma foldM_total {A B : Type} (f : B -> A -> result B) (l : list A) :
  (forall acc x, x ∈ l -> exists acc', f acc x = Ok acc') ->
  forall acc, exists out, foldM f acc l = Ok out.
Proof.
  induction l as [|x l IH]; intros Hf acc; simpl; [eauto|].
  destruct (Hf acc x) as [acc' ->]; [left|]. simpl.
  apply IH. intros ???. apply Hf. by right.
Qed.

Lemma ranges_overlap_b_parsed mission assigned s e :
  assigned !! "start_date" = Some s -> assigned !! "end_date" = Some e ->
  ranges_overlap_b mission assigned
  = match parse_date (get_d mission "start_date" []),
          parse_date (get_d mission "end_date" []),
          parse_date s, parse_date e with
    | Some sa, Some ea, Some sb, Some eb =>
        dt_le (replace_tzinfo_None sa) (replace_tzinfo_None eb)
        && dt_le (replace_tzinfo_None sb) (replace_tzinfo_None ea)
    | _, _, _, _ => false
    end.
Proof.
  intros Hs He. unfold ranges_overlap_b, date_field.
  unfold get_d at 3 4. rewrite Hs, He. simpl.
  destruct (parse_date (get_d mission "start_date" [])),
           (parse_date (get_d mission "end_date" [])),
           (parse_date s), (parse_date e); reflexivity.
Qed.

Lemma pilot_step_spec missions mission acc p acc' :
  mission_pilot_step missions mission acc p = Ok acc' ->
  acc' = if pilot_eligible_b missions mission p then acc ++ [p] else acc.
Proof.
  unfold mission_pilot_step, pilot_step, pilot_eligible_b, temporal_conflict_b.
  destruct (is_available p); simpl; [|by intros [= <-]].
  destruct (bool_decide (normalize_text (get_d p "location" []) = _));
    simpl; [|by intros [= <-]].
  destruct (bool_decide (_ ∈ lowered_list p "skills")); simpl; [|by intros [= <-]].
  destruct (bool_decide (_ ∈ lowered_list p "certifications"));
    simpl; [|by intros [= <-]].
  destruct (p !! "current_assignment") as [a|]; simpl; [|by intros [= <-]].
  destruct (bool_decide (strip a ∈ empty_spellings)); simpl; [by intros [= <-]|].
  destruct (next_mission missions (Some a)) as [assigned|] eqn:E;
    [|by intros [= <-]].
  apply next_mission_Some in E as [_ Hid].
  rewrite (if_truthy_field _ _ _ Hid). unfold index.
  destruct (assigned !! "start_date") as [s|] eqn:Hs; simpl; [|done].
  destruct (assigned !! "end_date") as [e|] eqn:He; simpl; [|done].
  rewrite (ranges_overlap_b_parsed _ _ _ _ Hs He).
  destruct (_overlaps _ _ s e) as [ov|] eqn:Ho; simpl; [|done].
  apply overlaps_inv in Ho as <-.
  destruct ov; by intros [= <-].
Qed.

Lemma pilot_step_total missions mission acc p :
  dates_ok mission = true -> forallb dates_ok missions = true ->
  exists acc', mission_pilot_step missions mission acc p = Ok acc'.
Proof.
  intros Hm Hall. unfold mission_pilot_step, pilot_step.
  destruct (negb (is_available p)); [eauto|].
  destruct (negb (bool_decide (normalize_text (get_d p "location" []) = _))); [eauto|].
  destruct (negb (bool_decide (_ ∈ lowered_list p "skills"))); [eauto|].
  destruct (negb (bool_decide (_ ∈ lowered_list p "certifications"))); [eauto|].
  destruct (negb (_is_empty_assignment _)); [|eauto].
  destruct (if_truthy _) as [assigned|] eqn:E; [|eauto].
  assert (assigned ∈ missions) as Hin.
  { unfold if_truthy in E. destruct (rec_truthy _); [|done].
    by apply next_mission_Some in E as [? _]. }
  rewrite forallb_forall in Hall.
  apply list_elem_of_In, Hall in Hin.
  unfold dates_ok in Hm, Hin. unfold index, get_d.
  destruct (mission !! "start_date") as [s0|]; [|done].
  destruct (mission !! "end_date") as [e0|]; [|done].
  destruct (assigned !! "start_date") as [s|]; [|done].
  destruct (assigned !! "end_date") as [e|]; [|done]. simpl.
  destruct (parse_date s0) as [ds0|] eqn:P1; [|done].
  destruct (parse_date e0) as [de0|] eqn:P2; [|done].
  destruct (parse_date s) as [ds|] eqn:P3; [|done].
  destruct (parse_date e) as [de|] eqn:P4; [|done].
  rewrite (overlaps_parsed _ _ _ _ _ _ _ _ P1 P2 P3 P4). simpl.
  destruct (_ && _); eauto.
Qed.

Lemma eligible_pilots_loop_spec missions mission pilots eligible :
  eligible_pilots_loop missions
    (get_d mission "required_skills" []) (get_d mission "required_certs" [])
    (get_d mission "location" [])
    (get_d mission "start_date" []) (get_d mission "end_date" []) pilots
  = Ok eligible ->
  eligible = List.filter (pilot_eligible_b missions mission) pilots.
Proof.
  change (foldM (mission_pilot_step missions mission) [] pilots = Ok eligible ->
          eligible = List.filter (pilot_eligible_b missions mission) pilots).
  intros H. by apply (foldM_select _ _ (pilot_step_spec missions mission)) in H.
Qed.

Lemma eligible_pilots_loop_total missions mission pilots :
  dates_ok mission = true -> forallb dates_ok missions = true ->
  exists eligible,
    eligible_pilots_loop missions
      (get_d mission "required_skills" []) (get_d mission "required_certs" [])
      (get_d mission "location" [])
      (get_d mission "start_date" []) (get_d mission "end_date" []) pilots
    = Ok eligible.
Proof.
  intros Hm Hall.
  change (exists eligible,
             foldM (mission_pilot_step missions mission) [] pilots = Ok eligible).
  apply foldM_total. intros acc p _. by apply pilot_step_total.
Qed.

Lemma elem_of_filter {A : Type} (keep : A -> bool) (l : list A) (x : A) :
  x ∈ List.filter keep l <-> x ∈ l /\ keep x = true.
Proof. rewrite !list_elem_of_In. apply filter_In. Qed.

Lemma head_filter_first_such {A : Type} (keep : A -> bool) (P : A -> Prop) (l : list A) :
  (forall x, keep x = true <-> P x) ->
  first_such P l (head (List.filter keep l)).
Proof.
  intros HP. induction l as [|x l IH]; simpl.
  - intros y Hy. by apply elem_of_nil in Hy.
  - destruct (keep x) eqn:E; simpl.
    + exists [], l. split; [done|]. split; [by apply HP|].
      intros y Hy. by apply elem_of_nil in Hy.
    + assert (~ P x) as Hx by (rewrite <- HP; congruence).
      destruct (head (List.filter keep l)) as [z|]; simpl in *.
      * destruct IH as (before & after & -> & Hz & Hb).
        exists (x :: before), after. split; [done|]. split; [done|].
        intros y [->|Hy]%elem_of_cons; auto.
      * intros y [->|Hy]%elem_of_cons; auto.
Qed.

Lemma passes_drone_filter_matches mission d :
  drone_matches (Some (derived_capability mission))
                (Some (get_d mission "location" [])) true d = true
  <-> passes_drone_filter mission d.
Proof.
  unfold passes_drone_filter. rewrite filter_drones_filter. simpl.
  destruct (drone_matches _ _ _ d); split; done.
Qed.

Lemma issues_distinct : no_pilot_issue <> no_drone_issue.
Proof. unfold no_pilot_issue, no_drone_issue. vm_compute. discriminate. Qed.

(** The pilot loop, for a found mission: it returns when the dates are in
    order, and what it returns are the pilots of the input that satisfy
    [pilot_eligible]. *)
Lemma eligible_pilots_loop_iff (project_id : str) (pilots drones missions : list record)
    (mission : record) :
  next_mission missions (Some project_id) = Some mission ->
  let loop :=
    eligible_pilots_loop missions
      (get_d mission "required_skills" []) (get_d mission "required_certs" [])
      (get_d mission "location" [])
      (get_d mission "start_date" []) (get_d mission "end_date" []) pilots in
  (forallb dates_ok missions = true -> exists eligible, loop = Ok eligible)
  /\ (forall eligible, loop = Ok eligible ->
        eligible `sublist_of` pilots
        /\ forall p, p ∈ eligible <-> p ∈ pilots /\ pilot_eligible missions mission p)
  /\ (forall rec, recommend_assignment project_id pilots drones missions = Ok rec ->
        exists eligible, loop = Ok eligible /\ pilot rec = head eligible).
Proof.
  intros Hfound loop. split; [|split].
  - intros Hall. apply eligible_pilots_loop_total; [|done].
    apply next_mission_Some in Hfound as [Hin _].
    rewrite forallb_forall in Hall. by apply Hall, list_elem_of_In.
  - intros eligible ->%eligible_pilots_loop_spec. split; [apply filter_sublist|].
    intros p. by rewrite elem_of_filter, pilot_eligible_reflect.
  - intros rec. unfold recommend_assignment.
    rewrite (next_mission_truthy _ _ _ Hfound). fold loop.
    destruct loop as [eligible|e]; simpl; [|done].
    intros [= <-]. by exists eligible.
Qed.

(** C2: when the mission is found, the pilot returned is the first
    eligible pilot of the input list and the drone returned is the first
    drone of the input list that passes the availability filter for the
    derived capability and the mission's location, [None] standing for
    "there is none"; the answer is a function of the inputs. *)
Theorem recommend_first_match (project_id : str) (pilots drones missions : list record)
    (mission : record) :
  next_mission missions (Some project_id) = Some mission ->
  (forallb dates_ok missions = true ->
     exists rec, recommend_assignment project_id pilots drones missions = Ok rec)
  /\ (forall rec, recommend_assignment project_id pilots drones missions = Ok rec ->
        first_such (pilot_eligible missions mission) pilots (pilot rec)
        /\ first_such (passes_drone_filter mission) drones (drone rec))
  /\ (forall r r', recommend_assignment project_id pilots drones missions = r ->
        recommend_assignment project_id pilots drones missions = r' -> r = r').
Proof.
  intros Hfound. split; [|split].
  - intros Hall. unfold recommend_assignment.
    rewrite (next_mission_truthy _ _ _ Hfound).
    destruct (eligible_pilots_loop_total missions mission pilots) as [eligible He];
      [|done|].
    + apply next_mission_Some in Hfound as [Hin _].
      rewrite forallb_forall in Hall. by apply Hall, list_elem_of_In.
    + rewrite He. simpl. eauto.
  - intros rec. unfold recommend_assignment.
    rewrite (next_mission_truthy _ _ _ Hfound).
    destruct (eligible_pilots_loop _ _ _ _ _ _ pilots) as [eligible|e] eqn:He;
      simpl; [|done].
    apply eligible_pilots_loop_spec in He as ->.
    intros [= <-]. simpl. split.
    + apply head_filter_first_such, pilot_eligible_reflect.
    + rewrite filter_drones_filter.
      apply head_filter_first_such, passes_drone_filter_matches.
  - by intros r r' <- <-.
Qed.

(** C10: when the mission is found, no pilot is returned exactly when the
    issues contain the no-pilot message, no drone is returned exactly when
    they contain the no-drone message, and the issues are empty exactly
    when both a pilot and a drone are returned. *)
Theorem issues_reflect_absence (project_id : str) (pilots drones missions : list record)
    (mission : record) (rec : AssignmentRecommendation) :
  next_mission missions (Some project_id) = Some mission ->
  recommend_assignment project_id pilots drones missions = Ok rec ->
  (pilot rec = None
     <-> lit "No available pilot meets skill, cert, and location requirements."
         ∈ issues rec)
  /\ (drone rec = None
     <-> lit "No available drone matches capability and location requirements."
         ∈ issues rec)
  /\ (issues rec = [] <-> is_Some (pilot rec) /\ is_Some (drone rec)).
Proof.
  intros Hfound. unfold recommend_assignment.
  rewrite (next_mission_truthy _ _ _ Hfound).
  destruct (eligible_pilots_loop _ _ _ _ _ _ _) as [eligible|e]; simpl; [|done].
  intros [= <-]. simpl.
  fold no_pilot_issue no_drone_issue. pose proof issues_distinct as Hd.
  destruct eligible as [|p ps], (filter_drones _ _ _ _) as [|d ds]; simpl;
    rewrite ?elem_of_cons, ?elem_of_nil; unfold is_Some;
    repeat split; try done; eauto;
    try (intros [?|[]]; congruence); try (by intros [[? ?] [? ?]]).
Qed.

(** *** The conflict detector, phase by phase *)

Lemma fold_left_flat {A B : Type} (f : list B -> A -> list B) (g : A -> list B) :
  (forall acc x, f acc x = acc ++ g x) ->
  forall l acc, fold_left f l acc = acc ++ flat_map g l.
Proof.
  intros Hf l. induction l as [|x l IH]; intros acc; simpl.
  - by rewrite app_nil_r.
  - by rewrite IH, Hf, <- app_assoc.
Qed.

Lemma foldM_flat {A B : Type} (f : list B -> A -> result (list B))
    (g : A -> result (list B)) :
  (forall acc x, f acc x = r ← g x; Ok (acc ++ r)) ->
  forall l acc, foldM f acc l = rs ← mapM g l; Ok (acc ++ concat rs).
Proof.
  intros Hf l. induction l as [|x l IH]; intros acc; simpl.
  - by rewrite app_nil_r.
  - rewrite Hf. destruct (g x) as [r|e]; simpl; [|done].
    rewrite IH. destruct (mapM g l) as [rs|e]; simpl; [|done].
    by rewrite <- app_assoc.
Qed.

Ltac split_appends :=
  repeat match goal with
         | |- context [if ?b then _ else _] => destruct b
         end;
  simpl; rewrite ?app_nil_r, <- ?app_assoc; try reflexivity.

Lemma pilot_integrity_body_app mission_map acc p :
  pilot_integrity_body mission_map acc p
  = acc ++ pilot_integrity_body mission_map [] p.
Proof.
  unfold pilot_integrity_body.
  destruct (negb (_is_empty_assignment _)); [|by rewrite app_nil_r].
  destruct (if_truthy (map_get mission_map _)) as [mission|]; [|done].
  split_appends.
Qed.

Lemma drone_integrity_body_app mission_map acc d :
  drone_integrity_body mission_map acc d
  = acc ++ drone_integrity_body mission_map [] d.
Proof.
  unfold drone_integrity_body.
  destruct (negb (_is_empty_assignment _)); [|by rewrite app_nil_r].
  destruct (if_truthy (map_get mission_map _)) as [mission|]; [|done].
  split_appends.
Qed.

Lemma colocation_body_app drone_by_assignment acc p :
  colocation_body drone_by_assignment acc p
  = acc ++ colocation_body drone_by_assignment [] p.
Proof.
  unfold colocation_body.
  destruct (negb (_is_empty_assignment _)); [|by rewrite app_nil_r].
  destruct (map_get drone_by_assignment _) as [d|]; [|by rewrite app_nil_r].
  split_appends.
Qed.

Lemma overlap_scan_app acc p assignment m1 ms :
  overlap_scan acc p assignment m1 ms
  = r ← overlap_scan [] p assignment m1 ms; Ok (acc ++ r).
Proof.
  induction ms as [|m2 ms IH]; simpl; [by rewrite app_nil_r|].
  destruct (index m2 "project_id") as [id2|]; simpl; [|done].
  destruct (index m1 "project_id") as [id1|]; simpl; [|done].
  destruct (bool_decide (id2 = id1)); [done|].
  destruct (index m1 "start_date") as [s1|]; simpl; [|done].
  destruct (index m1 "end_date") as [e1|]; simpl; [|done].
  destruct (index m2 "start_date") as [s2|]; simpl; [|done].
  destruct (index m2 "end_date") as [e2|]; simpl; [|done].
  destruct (_overlaps s1 e1 s2 e2) as [[|]|]; simpl; [|done|done].
  destruct (bool_decide (assignment = Some id1)); simpl; [done|].
  by rewrite app_nil_r.
Qed.

Lemma overlap_body_app mission_map missions acc p :
  overlap_body mission_map missions acc p
  = r ← overlap_body mission_map missions [] p; Ok (acc ++ r).
Proof.
  unfold overlap_body.
  destruct (_is_empty_assignment _); simpl; [by rewrite app_nil_r|].
  destruct (if_truthy _) as [m1|]; simpl; [|by rewrite app_nil_r].
  apply overlap_scan_app.
Qed.

(** C5: [detect_conflicts] is a function of its three arguments, which it
    only reads; its output is the pilot-integrity conflicts, then the
    drone-integrity conflicts, then the overlap conflicts, then the
    colocation conflicts, each phase listing its entities in input order;
    two runs on the same input give the same list. *)
Theorem detect_conflicts_phases (pilots drones missions : list record) :
  detect_conflicts pilots drones missions
  = (mission_map ← build_mission_map missions;
     overlaps ← mapM (overlap_body mission_map missions []) pilots;
     Ok (flat_map (pilot_integrity_body mission_map []) pilots
         ++ flat_map (drone_integrity_body mission_map []) drones
         ++ concat overlaps
         ++ flat_map (colocation_body (build_drone_by_assignment drones) []) pilots))
  /\ (first ← detect_conflicts pilots drones missions;
      second ← detect_conflicts pilots drones missions;
      Ok (first, second))
     = (once ← detect_conflicts pilots drones missions; Ok (once, once)).
Proof.
  split.
  - unfold detect_conflicts.
    destruct (build_mission_map missions) as [mission_map|e]; simpl; [|done].
    rewrite (fold_left_flat _ _ (pilot_integrity_body_app mission_map)).
    rewrite (fold_left_flat _ _ (drone_integrity_body_app mission_map)).
    rewrite (foldM_flat _ _ (overlap_body_app mission_map missions)).
    destruct (mapM _ pilots) as [overlaps|e]; simpl; [|done].
    rewrite (fold_left_flat _ _ (colocation_body_app _)).
    by rewrite <- !app_assoc.
  - by destruct (detect_conflicts pilots drones missions).
Qed.

(** *** Entities without an assignment *)

Lemma fold_left_skip {A B : Type} (f : B -> A -> B) (x : A) (before after : list A)
    (acc : B) :
  (forall b, f b x = b) ->
  fold_left f (before ++ x :: after) acc = fold_left f (before ++ after) acc.
Proof. intros Hx. rewrite !fold_left_app. simpl. by rewrite Hx. Qed.

Lemma foldM_app {A B : Type} (f : B -> A -> result B) (l k : list A) (acc : B) :
  foldM f acc (l ++ k) = acc' ← foldM f acc l; foldM f acc' k.
Proof.
  revert acc. induction l as [|x l IH]; intros acc; simpl; [done|].
  destruct (f acc x) as [acc'|e]; simpl; [apply IH|done].
Qed.

Lemma foldM_skip {A B : Type} (f : B -> A -> result B) (x : A) (before after : list A)
    (acc : B) :
  (forall b, f b x = Ok b) ->
  foldM f acc (before ++ x :: after) = foldM f acc (before ++ after).
Proof.
  intros Hx. rewrite !foldM_app.
  destruct (foldM f acc before) as [acc'|e]; simpl; [|done]. by rewrite Hx.
Qed.

Lemma fold_left_ext_eq {A B : Type} (f g : B -> A -> B) (l : list A) (acc : B) :
  (forall b x, f b x = g b x) -> fold_left f l acc = fold_left g l acc.
Proof.
  intros H. revert acc. induction l as [|x l IH]; intros acc; simpl; [done|].
  by rewrite H, IH.
Qed.

Lemma empty_assignment_Some (e : record) (v : str) :
  e !! "current_assignment" = Some v -> strip v ∈ empty_spellings ->
  _is_empty_assignment (e !! "current_assignment") = true.
Proof. intros -> H. simpl. by apply bool_decide_eq_true. Qed.

Lemma nonempty_assignment_inv (o : option str) :
  _is_empty_assignment o = false -> exists a, o = Some a /\ strip a ∉ empty_spellings.
Proof.
  destruct o as [a|]; simpl; [|done].
  intros H%bool_decide_eq_false. eauto.
Qed.

(** Inserting a drone under a key leaves every other key as it was. *)
Lemma drone_by_assignment_other (d : record) (before after : list record) (k : str) :
  d !! "current_assignment" <> Some k ->
  build_drone_by_assignment (before ++ d :: after) !! k
  = build_drone_by_assignment (before ++ after) !! k.
Proof.
  intros Hk. unfold build_drone_by_assignment. rewrite !fold_left_app. simpl.
  set (step := fun (dba : gmap str record) (d0 : record) =>
                 match d0 !! "current_assignment" with
                 | Some a => if str_truthy a then <[a:=d0]> dba else dba
                 | None => dba
                 end).
  assert (forall l (m1 m2 : gmap str record),
             m1 !! k = m2 !! k -> fold_left step l m1 !! k = fold_left step l m2 !! k)
    as Hcongr.
  { induction l as [|x l IH]; intros m1 m2 Hm; simpl; [done|].
    apply IH. unfold step. destruct (x !! "current_assignment") as [a|]; [|done].
    destruct (str_truthy a); [|done].
    destruct (decide (a = k)) as [->|Hne].
    - by rewrite !lookup_insert_eq.
    - by rewrite !lookup_insert_ne. }
  apply Hcongr. destruct (d !! "current_assignment") as [a|]; [|done].
  destruct (str_truthy a); [|done].
  rewrite lookup_insert_ne; [done|congruence].
Qed.

(** C8: an entity whose current assignment, once trimmed, is the empty
    string, a hyphen, an en-dash or the mis-encoded en-dash counts as
    unassigned: removing it from the pilots, or from the drones, leaves the
    output of [detect_conflicts] unchanged, and as a pilot it passes the
    recommender's loop on status, location, skill and certification
    alone, whatever the missions and their dates. *)
Theorem empty_assignment_is_unassigned (e : record) (v : str) :
  e !! "current_assignment" = Some v ->
  strip v ∈ [ []; lit "-"; [0x2013]; [0xE2; 0x20AC; 0x2013] ] ->
  (forall before after drones missions,
      detect_conflicts (before ++ e :: after) drones missions
      = detect_conflicts (before ++ after) drones missions)
  /\ (forall pilots before after missions,
      detect_conflicts pilots (before ++ e :: after) missions
      = detect_conflicts pilots (before ++ after) missions)
  /\ (forall missions required_skill required_cert location start end_ eligible,
      pilot_step missions required_skill required_cert location start end_ eligible e
      = Ok (if bool_decide (normalize_text (get_d e "status" []) = lit "available")
               && bool_decide (normalize_text (get_d e "location" [])
                               = normalize_text location)
               && bool_decide (normalize_text required_skill ∈ lowered_list e "skills")
               && bool_decide (normalize_text required_cert
                               ∈ lowered_list e "certifications")
            then eligible ++ [e] else eligible)).
Proof.
  intros Hv Hs. pose proof (empty_assignment_Some e v Hv Hs) as He.
  split; [|split].
  - intros before after drones missions. unfold detect_conflicts.
    destruct (build_mission_map missions) as [mission_map|?]; simpl; [|done].
    rewrite (fold_left_skip (pilot_integrity_body mission_map) e).
    2: { intros b. unfold pilot_integrity_body. by rewrite He. }
    rewrite (foldM_skip (overlap_body mission_map missions) e).
    2: { intros b. unfold overlap_body. by rewrite He. }
    destruct (foldM _ _ (before ++ after)) as [conflicts|?]; simpl; [|done].
    rewrite (fold_left_skip (colocation_body _) e); [done|].
    intros b. unfold colocation_body. by rewrite He.
  - intros pilots before after missions. unfold detect_conflicts.
    destruct (build_mission_map missions) as [mission_map|?]; simpl; [|done].
    rewrite (fold_left_skip (drone_integrity_body mission_map) e).
    2: { intros b. unfold drone_integrity_body. by rewrite He. }
    destruct (foldM _ _ pilots) as [conflicts|?]; simpl; [|done].
    f_equal. apply fold_left_ext_eq. intros b p. unfold colocation_body.
    destruct (_is_empty_assignment (p !! "current_assignment")) eqn:Hp; [done|].
    apply nonempty_assignment_inv in Hp as (a & -> & Ha). simpl.
    rewrite (drone_by_assignment_other e before after a); [done|].
    rewrite Hv. intros [= ->]. by apply Ha.
  - intros missions required_skill required_cert location start end_ eligible.
    unfold pilot_step, is_available. rewrite He. simpl.
    destruct (bool_decide (normalize_text (get_d e "status" []) = _)); simpl; [|done].
    destruct (bool_decide (normalize_text (get_d e "location" []) = _)); simpl; [|done].
    destruct (bool_decide (_ ∈ lowered_list e "skills")); simpl; [|done].
    by destruct (bool_decide (_ ∈ lowered_list e "certifications")).
Qed.

(** *** The planner *)

Lemma find_app_first {A : Type} (f : A -> bool) (l k : list A) :
  List.find f (l ++ k) = match List.find f l with
                         | Some x => Some x
                         | None => List.find f k
                         end.
Proof.
  induction l as [|x l IH]; simpl; [done|]. by destruct (f x).
Qed.













(** *** Trimming and splitting *)

Lemma lstrip_spaces_app (ws s : str) :
  forallb is_space ws = true -> lstrip (ws ++ s) = lstrip s.
Proof.
  induction ws as [|c ws IH]; simpl; [done|].
  intros [Hc Hws]%andb_true_iff. rewrite Hc. by apply IH.
Qed.

Lemma lstrip_decomp (s : str) :
  exists ws, s = ws ++ lstrip s /\ forallb is_space ws = true.
Proof.
  induction s as [|c s (ws & Hs & Hws)]; simpl; [by exists []|].
  destruct (is_space c) eqn:Hc; [|by exists []].
  exists (c :: ws). simpl. rewrite Hc, Hws. split; [congruence|done].
Qed.

Lemma lstrip_head (s : str) (c : N) (t : str) :
  lstrip s = c :: t -> is_space c = false.
Proof.
  induction s as [|d s IH]; simpl; [done|].
  destruct (is_space d) eqn:Hd; [done|]. by intros [= <- _].
Qed.

Lemma lstrip_fixed (c : N) (t : str) :
  is_space c = false -> lstrip (c :: t) = c :: t.
Proof. intros H. simpl. by rewrite H. Qed.

Lemma forallb_rev {A : Type} (f : A -> bool) (l : list A) :
  forallb f (rev l) = forallb f l.
Proof.
  induction l as [|x l IH]; simpl; [done|].
  by rewrite forallb_app, IH, andb_comm; simpl; rewrite andb_true_r.
Qed.

Lemma rstrip_decomp (s : str) :
  exists ws, s = rstrip s ++ ws /\ forallb is_space ws = true.
Proof.
  destruct (lstrip_decomp (rev s)) as (ws & Hs & Hws).
  exists (rev ws). split; [|by rewrite forallb_rev].
  unfold rstrip. by rewrite <- rev_app_distr, <- Hs, rev_involutive.
Qed.

Lemma rstrip_spaces_app (s ws : str) :
  forallb is_space ws = true -> rstrip (s ++ ws) = rstrip s.
Proof.
  intros Hws. unfold rstrip. rewrite rev_app_distr, lstrip_spaces_app; [done|].
  by rewrite forallb_rev.
Qed.

Lemma rstrip_idem (s : str) : rstrip (rstrip s) = rstrip s.
Proof.
  destruct (rstrip_decomp s) as (ws & Hs & Hws).
  rewrite Hs at 2. by rewrite rstrip_spaces_app.
Qed.

(** What [strip] leaves starts with a character that is not a space. *)
Lemma strip_head (s : str) (c : N) (t : str) :
  strip s = c :: t -> is_space c = false.
Proof.
  unfold strip. destruct (rstrip_decomp (lstrip s)) as (ws & Hs & _).
  intros H. rewrite H in Hs. simpl in Hs. by apply lstrip_head in Hs.
Qed.

(** [strip] is idempotent. *)
Lemma strip_idem (s : str) : strip (strip s) = strip s.
Proof.
  unfold strip at 1. destruct (strip s) as [|c t] eqn:E; [done|].
  rewrite (lstrip_fixed c t (strip_head _ _ _ E)), <- E.
  unfold strip. apply rstrip_idem.
Qed.

(** Padding a string with spaces on both sides does not change its trimmed
    form. *)
Lemma strip_padding (ws s ws' : str) :
  forallb is_space ws = true -> forallb is_space ws' = true ->
  strip (ws ++ s ++ ws') = strip s.
Proof.
  intros Hws Hws'. unfold strip. rewrite lstrip_spaces_app by done. clear ws Hws.
  induction s as [|c s IH]; simpl.
  - destruct (lstrip_decomp ws') as (v & Hv & Hsp).
    destruct (lstrip ws') as [|d t] eqn:E; [done|].
    apply lstrip_head in E. rewrite Hv, forallb_app in Hws'.
    apply andb_true_iff in Hws' as [_ Hd]. simpl in Hd. by rewrite E in Hd.
  - destruct (is_space c); [done|].
    change (c :: s ++ ws') with ((c :: s) ++ ws'). by apply rstrip_spaces_app.
Qed.

Lemma sublist_strip (s : str) : strip s `sublist_of` s.
Proof.
  unfold strip.
  destruct (lstrip_decomp s) as (ws & Hs & _).
  destruct (rstrip_decomp (lstrip s)) as (ws' & Hs' & _).
  rewrite Hs at 2. rewrite Hs' at 2.
  by apply sublist_inserts_l, sublist_inserts_r.
Qed.

Lemma split_pieces (sep : N) (s : str) :
  split sep s <> [] /\ forall piece, piece ∈ split sep s -> sep ∉ piece.
Proof.
  induction s as [|c s [Hne IH]]; simpl.
  - split; [done|]. intros piece ->%list_elem_of_singleton. apply not_elem_of_nil.
  - destruct (N.eqb_spec c sep) as [->|Hc].
    + split; [done|]. intros piece [->|Hp]%elem_of_cons; [apply not_elem_of_nil|auto].
    + destruct (split sep s) as [|w ws]; [done|]. split; [done|].
      intros piece [->|Hp]%elem_of_cons.
      * intros [->|Hw]%elem_of_cons; [done|]. apply (IH w); [left|done].
      * apply IH. by right.
Qed.

(** X1: every item [_split_list] returns is non-empty, is its own trimmed
    form (no white space at either end) and contains no comma. *)
Theorem split_list_items_clean (value item : str) :
  item ∈ _split_list value ->
  item <> [] /\ strip item = item /\ comma ∉ item.
Proof.
  unfold _split_list. rewrite list_elem_of_In, in_map_iff.
  intros (piece & <- & [Hin Hne]%filter_In). repeat split.
  - by destruct (strip piece).
  - apply strip_idem.
  - intros Hc. apply list_elem_of_In in Hin.
    apply (split_pieces comma value) in Hin. apply Hin.
    eapply elem_of_sublist; [exact Hc|apply sublist_strip].
Qed.

(** X2: white space around a current assignment is ignored when deciding
    whether it is empty. *)
Theorem empty_assignment_ignores_padding (ws v ws' : str) :
  forallb is_space ws = true -> forallb is_space ws' = true ->
  _is_empty_assignment (Some (ws ++ v ++ ws')) = _is_empty_assignment (Some v).
Proof. intros Hws Hws'. simpl. by rewrite strip_padding. Qed.

(** *** The mission map of the conflict detector *)

Lemma index_Ok (r : record) (k : string) (v : str) :
  index r k = Ok v <-> r !! k = Some v.
Proof. unfold index. destruct (r !! k); split; congruence. Qed.

Lemma index_Raise (r : record) (k : string) (e : exn) :
  index r k = Raise e <-> r !! k = None /\ e = KeyError k.
Proof.
  unfold index. destruct (r !! k); split.
  - done.
  - by intros [? _].
  - by intros [= <-].
  - by intros [_ ->].
Qed.

Lemma index_Raise_None (r : record) (k : string) :
  r !! k = None -> index r k = Raise (KeyError k).
Proof. unfold index. by intros ->. Qed.

Lemma mission_map_lookup_acc (l : list record) (acc mm : gmap str record) (k : str) :
  foldM (fun mission_map m =>
           k ← index m "project_id"; Ok (<[k := m]> mission_map)) acc l = Ok mm ->
  mm !! k = match next_mission (rev l) (Some k) with
            | Some m => Some m
            | None => acc !! k
            end.
Proof.
  revert acc. induction l as [|x l IH]; intros acc; simpl.
  - by intros [= <-].
  - destruct (index x "project_id") as [kx|] eqn:Hx; simpl; [|done].
    apply index_Ok in Hx.
    intros ->%IH. unfold next_mission. rewrite find_app_first.
    destruct (List.find _ (rev l)); [done|]. simpl. rewrite Hx.
    destruct (decide (kx = k)) as [->|Hne].
    + by rewrite bool_decide_eq_true_2, lookup_insert_eq.
    + rewrite bool_decide_eq_false_2 by congruence. by rewrite lookup_insert_ne.
Qed.

Lemma mission_map_lookup (missions : list record) (mm : gmap str record) (k : str) :
  build_mission_map missions = Ok mm ->
  mm !! k = next_mission (rev missions) (Some k).
Proof.
  intros H%(mission_map_lookup_acc _ _ _ k). rewrite H.
  by destruct (next_mission _ _).
Qed.

Lemma mission_map_value (missions : list record) (mm : gmap str record) (k : str)
    (m : record) :
  build_mission_map missions = Ok mm -> mm !! k = Some m ->
  m ∈ missions /\ m !! "project_id" = Some k.
Proof.
  intros Hb Hk. rewrite (mission_map_lookup _ _ k Hb) in Hk.
  apply next_mission_Some in Hk as [Hin Hid]. split; [|done].
  apply list_elem_of_In, in_rev. by apply list_elem_of_In.
Qed.

Lemma next_mission_exists (missions : list record) (key : option str) (m : record) :
  m ∈ missions -> m !! "project_id" = key ->
  exists m', next_mission missions key = Some m'.
Proof.
  intros Hin Hk. unfold next_mission.
  destruct (List.find _ missions) as [m'|] eqn:E; [eauto|].
  apply list_elem_of_In in Hin.
  pose proof (find_none _ _ E m Hin) as Hf. simpl in Hf.
  by rewrite bool_decide_eq_true_2 in Hf.
Qed.

Lemma drone_by_assignment_lookup_acc (l : list record) (acc : gmap str record) (k : str) :
  fold_left (fun dba d =>
               match d !! "current_assignment" with
               | Some a => if str_truthy a then <[a := d]> dba else dba
               | None => dba
               end) l acc !! k
  = match List.find (fun d => str_truthy k
                              && bool_decide (d !! "current_assignment" = Some k)) (rev l) with
    | Some d => Some d
    | None => acc !! k
    end.
Proof.
  revert acc. induction l as [|x l IH]; intros acc; simpl; [done|].
  rewrite IH, find_app_first.
  destruct (List.find _ (rev l)); [done|]. simpl.
  destruct (x !! "current_assignment") as [a|] eqn:Hx.
  - destruct (decide (a = k)) as [->|Hne].
    + rewrite bool_decide_eq_true_2 by done.
      destruct (str_truthy k); simpl; [by rewrite lookup_insert_eq|done].
    + rewrite bool_decide_eq_false_2 by congruence. rewrite andb_false_r.
      destruct (str_truthy a); [by rewrite lookup_insert_ne|done].
  - by rewrite andb_false_r.
Qed.

(** X3: both dictionaries of the detector keep the last writer.  The
    mission map resolves an id to the last mission of the list that carries
    it (the recommender resolves it to the first), and the drone map
    resolves a non-empty assignment to the last drone that holds it; the
    empty string is never a key of the drone map. *)
Theorem detector_maps_keep_last (missions drones : list record) (mm : gmap str record) :
  build_mission_map missions = Ok mm ->
  (forall k, mm !! k = next_mission (rev missions) (Some k))
  /\ (forall k, k <> [] ->
        build_drone_by_assignment drones !! k
        = List.find (fun d => bool_decide (d !! "current_assignment" = Some k))
                    (rev drones))
  /\ build_drone_by_assignment drones !! [] = None.
Proof.
  intros Hb. split; [|split].
  - intros k. by apply mission_map_lookup.
  - intros k Hk. unfold build_drone_by_assignment.
    rewrite drone_by_assignment_lookup_acc, lookup_empty.
    destruct k; [done|]. simpl. by destruct (List.find _ _).
  - unfold build_drone_by_assignment.
    rewrite drone_by_assignment_lookup_acc, lookup_empty. simpl.
    by destruct (List.find _ _) eqn:E; [apply find_some in E as [_ ?]|].
Qed.

Lemma build_mission_map_total (missions : list record) :
  forallb has_project_id missions = true ->
  exists mm, build_mission_map missions = Ok mm.
Proof.
  intros H. unfold build_mission_map. apply foldM_total.
  intros acc m Hm%list_elem_of_In. rewrite forallb_forall in H.
  apply H in Hm. unfold has_project_id in Hm.
  destruct (m !! "project_id") as [k|] eqn:Hk; [|done].
  apply index_Ok in Hk. rewrite Hk. simpl. eauto.
Qed.

Lemma build_mission_map_raise (missions : list record) (e : exn) :
  build_mission_map missions = Raise e ->
  e = KeyError "project_id" /\ exists m, m ∈ missions /\ m !! "project_id" = None.
Proof.
  unfold build_mission_map. generalize (∅ : gmap str record).
  induction missions as [|x l IH]; intros acc; simpl; [done|].
  destruct (index x "project_id") as [kx|e'] eqn:Hx; simpl.
  - intros [-> (m & Hm & Hid)]%IH. split; [done|]. exists m. split; [by right|done].
  - apply index_Raise in Hx as [Hx ->]. intros [= <-]. split; [done|].
    exists x. split; [left|done].
Qed.

Lemma missing_id_forallb (missions : list record) :
  forallb has_project_id missions = false <->
  exists m, m ∈ missions /\ m !! "project_id" = None.
Proof.
  induction missions as [|x l IH]; simpl.
  - split; [done|]. intros (m & Hm & _). by apply elem_of_nil in Hm.
  - rewrite andb_false_iff, IH. unfold has_project_id. split.
    + intros [Hx|(m & Hm & Hid)].
      * exists x. split; [left|]. by destruct (x !! "project_id").
      * exists m. split; [by right|done].
    + intros (m & [->|Hm]%elem_of_cons & Hid); [left; by rewrite Hid|right; eauto].
Qed.

Lemma overlaps_raise a_start a_end b_start b_end (e : exn) :
  _overlaps a_start a_end b_start b_end = Raise e -> exists v, e = ParserError v.
Proof.
  unfold _overlaps, _date.
  destruct (parse_date a_start); simpl; [|intros [= <-]; eauto].
  destruct (parse_date b_end); simpl; [|intros [= <-]; eauto].
  destruct (dt_le _ _); [|done].
  destruct (parse_date b_start); simpl; [|intros [= <-]; eauto].
  destruct (parse_date a_end); simpl; [done|intros [= <-]; eauto].
Qed.

Lemma overlap_scan_keeps_ids acc p assignment m1 ms :
  has_project_id m1 = true -> forallb has_project_id ms = true ->
  overlap_scan acc p assignment m1 ms <> Raise (KeyError "project_id").
Proof.
  unfold has_project_id. intros H1.
  induction ms as [|m2 ms IH]; simpl; [done|].
  intros [H2 Hms]%andb_true_iff. unfold index.
  destruct (m2 !! "project_id") as [id2|]; [|done].
  destruct (m1 !! "project_id") as [id1|]; [|done]. simpl.
  destruct (bool_decide (id2 = id1)); [by apply IH|].
  destruct (m1 !! "start_date"); simpl; [|done].
  destruct (m1 !! "end_date"); simpl; [|done].
  destruct (m2 !! "start_date"); simpl; [|done].
  destruct (m2 !! "end_date"); simpl; [|done].
  destruct (_overlaps _ _ _ _) as [[|]|e] eqn:Ho; simpl.
  - by destruct (bool_decide _).
  - by apply IH.
  - apply overlaps_raise in Ho as [v ->]. done.
Qed.

Lemma foldM_raise {A B : Type} (f : B -> A -> result B) (l : list A) (acc : B) (e : exn) :
  foldM f acc l = Raise e -> exists b x, x ∈ l /\ f b x = Raise e.
Proof.
  revert acc. induction l as [|x l IH]; intros acc; simpl; [done|].
  destruct (f acc x) as [acc'|e'] eqn:E; simpl.
  - intros (b & y & Hy & Hf)%IH. exists b, y. split; [by right|done].
  - intros [= ->]. exists acc, x. split; [left|done].
Qed.

(** X4: [detect_conflicts] raises [KeyError("project_id")] exactly when
    some mission of the list has no "project_id", whatever the pilots and
    drones are. *)
Theorem detect_conflicts_key_error (pilots drones missions : list record) :
  detect_conflicts pilots drones missions = Raise (KeyError "project_id")
  <-> exists m, m ∈ missions /\ m !! "project_id" = None.
Proof.
  split.
  - destruct (forallb has_project_id missions) eqn:Hall;
      [|intros _; by apply missing_id_forallb].
    unfold detect_conflicts.
    destruct (build_mission_map_total missions Hall) as [mm Hmm]. rewrite Hmm. simpl.
    destruct (foldM _ _ pilots) as [conflicts|e] eqn:E; simpl; [done|].
    intros [= ->]. apply foldM_raise in E as (b & p & _ & E). exfalso.
    unfold overlap_body in E.
    destruct (_is_empty_assignment _); [done|].
    destruct (if_truthy _) as [m1|] eqn:Hm1; [|done].
    unfold if_truthy in Hm1. destruct (rec_truthy _); [|done].
    destruct (p !! "current_assignment") as [a|]; [|done]. simpl in Hm1.
    apply (mission_map_value _ _ _ _ Hmm) in Hm1 as [_ Hid].
    revert E. apply overlap_scan_keeps_ids; [|done].
    unfold has_project_id. by rewrite Hid.
  - intros (m & Hm & Hid). unfold detect_conflicts.
    destruct (build_mission_map missions) as [mm|e] eqn:E; simpl.
    + exfalso. revert E. unfold build_mission_map. generalize (∅ : gmap str record).
      induction Hm as [m l|m x l Hm IH]; intros acc; simpl.
      * apply index_Raise_None in Hid. by rewrite Hid.
      * destruct (index x "project_id"); simpl; [by apply IH|done].
    + by apply build_mission_map_raise in E as [-> _].
Qed.

(** *** What the conflict detector reports *)

Lemma detect_conflicts_Ok_inv (pilots drones missions : list record) (out : list str) :
  detect_conflicts pilots drones missions = Ok out ->
  exists mm overlaps,
    build_mission_map missions = Ok mm
    /\ out = flat_map (pilot_integrity_body mm []) pilots
             ++ flat_map (drone_integrity_body mm []) drones
             ++ concat overlaps
             ++ flat_map (colocation_body (build_drone_by_assignment drones) []) pilots.
Proof.
  unfold detect_conflicts.
  destruct (build_mission_map missions) as [mm|e]; simpl; [|done].
  rewrite (fold_left_flat _ _ (pilot_integrity_body_app mm)).
  rewrite (fold_left_flat _ _ (drone_integrity_body_app mm)).
  rewrite (foldM_flat _ _ (overlap_body_app mm missions)).
  destruct (mapM _ pilots) as [overlaps|e]; simpl; [|done].
  rewrite (fold_left_flat _ _ (colocation_body_app _)).
  intros [= <-]. exists mm, overlaps. split; [done|]. by rewrite <- !app_assoc.
Qed.

Lemma fold_left_fixed {A B : Type} (f : B -> A -> B) (l : list A) (acc : B) :
  (forall x b, x ∈ l -> f b x = b) -> fold_left f l acc = acc.
Proof.
  induction l as [|x l IH]; intros H; simpl; [done|].
  rewrite H by left. apply IH. intros y b Hy. apply H. by right.
Qed.

Lemma foldM_fixed {A B : Type} (f : B -> A -> result B) (l : list A) (acc : B) :
  (forall x b, x ∈ l -> f b x = Ok b) -> foldM f acc l = Ok acc.
Proof.
  induction l as [|x l IH]; intros H; simpl; [done|].
  rewrite H by left. simpl. apply IH. intros y b Hy. apply H. by right.
Qed.

Lemma forallb_elem_of {A : Type} (f : A -> bool) (l : list A) (x : A) :
  forallb f l = true -> x ∈ l -> f x = true.
Proof. rewrite forallb_forall. intros H Hx. by apply H, list_elem_of_In. Qed.

(** X5: on a fleet in which no pilot and no drone holds an assignment, and
    every mission carries a project id, [detect_conflicts] returns the empty
    list; the missions' dates are not looked at. *)
Theorem unassigned_fleet_has_no_conflict (pilots drones missions : list record) :
  forallb has_project_id missions = true ->
  forallb (fun p => _is_empty_assignment (p !! "current_assignment")) pilots = true ->
  forallb (fun d => _is_empty_assignment (d !! "current_assignment")) drones = true ->
  detect_conflicts pilots drones missions = Ok [].
Proof.
  intros Hid Hp Hd. unfold detect_conflicts.
  destruct (build_mission_map_total missions Hid) as [mm ->]. simpl.
  rewrite (fold_left_fixed (pilot_integrity_body mm)).
  2: { intros p b Hin. unfold pilot_integrity_body.
       by rewrite (forallb_elem_of _ _ _ Hp Hin). }
  rewrite (fold_left_fixed (drone_integrity_body mm)).
  2: { intros d b Hin. unfold drone_integrity_body.
       by rewrite (forallb_elem_of _ _ _ Hd Hin). }
  rewrite (foldM_fixed (overlap_body mm missions)).
  2: { intros p b Hin. unfold overlap_body.
       by rewrite (forallb_elem_of _ _ _ Hp Hin). }
  simpl. rewrite fold_left_fixed; [done|].
  intros p b Hin. unfold colocation_body.
  by rewrite (forallb_elem_of _ _ _ Hp Hin).
Qed.

Lemma nonempty_assignment (a : str) :
  strip a ∉ empty_spellings -> _is_empty_assignment (Some a) = false.
Proof. intros H. simpl. by apply bool_decide_eq_false. Qed.

Lemma mission_map_hit (missions : list record) (mm : gmap str record) (a : str)
    (m : record) :
  build_mission_map missions = Ok mm -> m ∈ missions -> m !! "project_id" = Some a ->
  exists m', if_truthy (map_get mm (Some a)) = Some m' /\ m' !! "project_id" = Some a.
Proof.
  intros Hb Hin Hid. simpl. rewrite (mission_map_lookup _ _ a Hb).
  destruct (next_mission_exists (rev missions) (Some a) m) as [m' Hm']; [|done|].
  { apply list_elem_of_In, in_rev. rewrite rev_involutive. by apply list_elem_of_In. }
  rewrite Hm'. apply next_mission_Some in Hm' as [_ Hid'].
  exists m'. split; [by eapply if_truthy_field|done].
Qed.

Lemma mission_map_miss (missions : list record) (mm : gmap str record) (a : str) :
  build_mission_map missions = Ok mm ->
  (forall m, m ∈ missions -> m !! "project_id" <> Some a) ->
  if_truthy (map_get mm (Some a)) = None.
Proof.
  intros Hb Hno. simpl. rewrite (mission_map_lookup _ _ a Hb).
  rewrite next_mission_None; [done|].
  intros m Hm. apply Hno. apply list_elem_of_In, in_rev. by apply list_elem_of_In.
Qed.

(** X6: a drone whose status reads "maintenance" and whose current
    assignment is the id of a mission of the list is reported by
    [detect_conflicts], in every run that returns. *)
Theorem maintenance_drone_is_flagged (pilots drones missions : list record)
    (out : list str) (d m : record) (a : str) :
  detect_conflicts pilots drones missions = Ok out ->
  d ∈ drones ->
  d !! "current_assignment" = Some a -> strip a ∉ empty_spellings ->
  m ∈ missions -> m !! "project_id" = Some a ->
  normalize_text (get_d d "status" []) = lit "maintenance" ->
  (lit "Drone " ++ fmt (d !! "drone_id") ++ lit " is in maintenance but assigned to "
   ++ a ++ lit ".") ∈ out.
Proof.
  intros (mm & overlaps & Hb & ->)%detect_conflicts_Ok_inv Hd Ha Hne Hm Hid Hst.
  rewrite !elem_of_app. right; left.
  apply list_elem_of_In, in_flat_map. exists d. split; [by apply list_elem_of_In|].
  apply list_elem_of_In. unfold drone_integrity_body.
  rewrite Ha, (nonempty_assignment a Hne). simpl negb. cbv iota.
  destruct (mission_map_hit _ _ _ _ Hb Hm Hid) as (m' & -> & _).
  rewrite (bool_decide_eq_true_2 _ Hst).
  repeat match goal with
         | |- context [if ?b then _ else _] => destruct b
         end; simpl; rewrite ?elem_of_app, ?elem_of_cons; auto.
Qed.

(** X7: a pilot or a drone whose current assignment is not empty and is
    the id of no mission of the list is reported as assigned to an unknown
    mission, in every run that returns. *)
Theorem dangling_assignment_is_flagged (pilots drones missions : list record)
    (out : list str) (e : record) (a : str) :
  detect_conflicts pilots drones missions = Ok out ->
  e !! "current_assignment" = Some a -> strip a ∉ empty_spellings ->
  (forall m, m ∈ missions -> m !! "project_id" <> Some a) ->
  (e ∈ pilots ->
     (lit "Pilot " ++ fmt (e !! "name") ++ lit " assigned to unknown mission "
      ++ a ++ lit ".") ∈ out)
  /\ (e ∈ drones ->
     (lit "Drone " ++ fmt (e !! "drone_id") ++ lit " assigned to unknown mission "
      ++ a ++ lit ".") ∈ out).
Proof.
  intros (mm & overlaps & Hb & ->)%detect_conflicts_Ok_inv Ha Hne Hno.
  pose proof (mission_map_miss _ _ _ Hb Hno) as Hmiss.
  split; intros Hin; rewrite !elem_of_app.
  - left. apply list_elem_of_In, in_flat_map. exists e.
    split; [by apply list_elem_of_In|]. apply list_elem_of_In.
    unfold pilot_integrity_body.
    rewrite Ha, (nonempty_assignment a Hne), Hmiss. simpl. by left.
  - right; left. apply list_elem_of_In, in_flat_map. exists e.
    split; [by apply list_elem_of_In|]. apply list_elem_of_In.
    unfold drone_integrity_body.
    rewrite Ha, (nonempty_assignment a Hne), Hmiss. simpl. by left.
Qed.

(** *** Filters and overlap, further facts *)

Lemma filter_all {A : Type} (keep : A -> bool) (l : list A) :
  (forall x, keep x = true) -> List.filter keep l = l.
Proof.
  intros H. induction l as [|x l IH]; simpl; [done|]. by rewrite H, IH.
Qed.

Lemma filter_filter_and {A : Type} (f g : A -> bool) (l : list A) :
  List.filter f (List.filter g l) = List.filter (fun x => g x && f x) l.
Proof.
  induction l as [|x l IH]; simpl; [done|].
  destruct (g x); simpl; [|done]. destruct (f x); by rewrite IH.
Qed.

(** X8: a criterion given as the empty string is ignored, exactly as a
    criterion that is not given, whatever the other criteria are; with no
    criterion and [available_only = False] the filters return their
    input. *)
Theorem filters_ignore_empty_criteria (pilots drones : list record)
    (skill cert capability location : option str) (available_only : bool) :
  filter_pilots pilots (Some []) cert location available_only
    = filter_pilots pilots None cert location available_only
  /\ filter_pilots pilots skill (Some []) location available_only
    = filter_pilots pilots skill None location available_only
  /\ filter_pilots pilots skill cert (Some []) available_only
    = filter_pilots pilots skill cert None available_only
  /\ filter_drones drones (Some []) location available_only
    = filter_drones drones None location available_only
  /\ filter_drones drones capability (Some []) available_only
    = filter_drones drones capability None available_only
  /\ filter_pilots pilots (Some []) (Some []) (Some []) available_only
    = filter_pilots pilots None None None available_only
  /\ filter_drones drones (Some []) (Some []) available_only
    = filter_drones drones None None available_only
  /\ filter_pilots pilots None None None false = pilots
  /\ filter_drones drones None None false = drones.
Proof.
  rewrite !filter_pilots_filter, !filter_drones_filter.
  repeat split; try (by apply filter_all); by apply filter_ext.
Qed.

(** X9: the filters compose.  Filtering pilots by skill first and the
    result by certification, location and availability gives what one call
    with all four criteria gives, and likewise for drones; filtering a
    result again by the same criteria changes nothing. *)
Theorem filters_compose (pilots drones : list record)
    (skill cert capability location : option str) (available_only : bool) :
  filter_pilots (filter_pilots pilots skill None None false)
                None cert location available_only
    = filter_pilots pilots skill cert location available_only
  /\ filter_drones (filter_drones drones capability None false)
                   None location available_only
    = filter_drones drones capability location available_only
  /\ filter_pilots (filter_pilots pilots skill cert location available_only)
                   skill cert location available_only
    = filter_pilots pilots skill cert location available_only
  /\ filter_drones (filter_drones drones capability location available_only)
                   capability location available_only
    = filter_drones drones capability location available_only.
Proof.
  rewrite !filter_pilots_filter, !filter_drones_filter, !filter_filter_and.
  repeat split; apply filter_ext; intros x; unfold pilot_matches, drone_matches; simpl.
  - destruct available_only, (is_available x), (tag_accepts skill x "skills"),
      (tag_accepts cert x "certifications"), (location_accepts location x); done.
  - destruct available_only, (is_available x),
      (tag_accepts capability x "capabilities"), (location_accepts location x); done.
  - by rewrite andb_diag.
  - by rewrite andb_diag.
Qed.

(** X10: when the four dates parse, overlap is symmetric in the two
    ranges, and a range overlaps itself exactly when its start is not after
    its end. *)
Theorem overlaps_symmetric (a_start a_end b_start b_end : str)
    (sa ea sb eb : datetime) :
  _date a_start = Ok sa -> _date a_end = Ok ea ->
  _date b_start = Ok sb -> _date b_end = Ok eb ->
  _overlaps a_start a_end b_start b_end = _overlaps b_start b_end a_start a_end
  /\ _overlaps a_start a_end a_start a_end = Ok (dt_le sa ea).
Proof.
  intros (a & Ha & ->)%date_inv (e & He & ->)%date_inv
         (b & Hb & ->)%date_inv (f & Hf & ->)%date_inv.
  rewrite (overlaps_parsed _ _ _ _ _ _ _ _ Ha He Hb Hf).
  rewrite (overlaps_parsed _ _ _ _ _ _ _ _ Hb Hf Ha He).
  rewrite (overlaps_parsed _ _ _ _ _ _ _ _ Ha He Ha He).
  split; [by rewrite andb_comm|by rewrite andb_diag].
Qed.

(** X11: [_overlaps] raises nothing but the parse error of one of its four
    arguments; and when the first range starts after the second ends it
    answers [False] without parsing the other two dates, so that an
    unparseable end of the first range or start of the second goes
    unnoticed. *)
Theorem overlaps_errors (a_start a_end b_start b_end : str) :
  (forall e, _overlaps a_start a_end b_start b_end = Raise e ->
     exists v, v ∈ [a_start; a_end; b_start; b_end]
               /\ parse_date v = None /\ e = ParserError v)
  /\ (forall sa eb, _date a_start = Ok sa -> _date b_end = Ok eb ->
        dt_le sa eb = false ->
        _overlaps a_start a_end b_start b_end = Ok false).
Proof.
  split.
  - intros e. unfold _overlaps, _date.
    destruct (parse_date a_start) eqn:E1; simpl.
    2: { intros [= <-]. exists a_start. repeat split; [set_solver|done]. }
    destruct (parse_date b_end) eqn:E2; simpl.
    2: { intros [= <-]. exists b_end. repeat split; [set_solver|done]. }
    destruct (dt_le _ _); [|done].
    destruct (parse_date b_start) eqn:E3; simpl.
    2: { intros [= <-]. exists b_start. repeat split; [set_solver|done]. }
    destruct (parse_date a_end) eqn:E4; simpl; [done|].
    intros [= <-]. exists a_end. repeat split; [set_solver|done].
  - intros sa eb Ha Hb Hle. unfold _overlaps. rewrite Ha, Hb. simpl. by rewrite Hle.
Qed.

(** *** Accepting a recommendation *)

Lemma derived_capability_truthy (mission : record) :
  str_truthy (derived_capability mission) = true.
Proof.
  unfold derived_capability, table_get.
  destruct (List.find _ SKILL_TO_CAPABILITY) as [kv|] eqn:E; [|done].
  apply find_some in E as [Hin _]. unfold SKILL_TO_CAPABILITY in Hin. simpl in Hin.
  destruct Hin as [<-|[<-|[<-|[<-|[]]]]]; done.
Qed.

Lemma assign_to_project_assignment (proj : str) (e : record) :
  assign_to_project proj e !! "current_assignment" = Some proj.
Proof.
  unfold assign_to_project. rewrite lookup_insert_ne by done.
  apply lookup_insert_eq.
Qed.

Lemma assign_to_project_status (proj : str) (e : record) :
  get_d (assign_to_project proj e) "status" [] = lit "Assigned".
Proof. unfold get_d, assign_to_project. by rewrite lookup_insert_eq. Qed.

Lemma assign_to_project_other (proj : str) (e : record) (k : string) (d : str) :
  k <> "status" -> k <> "current_assignment" ->
  get_d (assign_to_project proj e) k d = get_d e k d.
Proof.
  intros H1 H2. unfold get_d, assign_to_project.
  by rewrite !lookup_insert_ne.
Qed.

Lemma head_elem_of {A : Type} (l : list A) (x : A) : head l = Some x -> x ∈ l.
Proof. destruct l; [done|]. intros [= ->]. left. Qed.

(** X12: accepting a recommendation leaves no integrity conflict.  When
    [recommend_assignment] returns a pilot and a drone for a mission with a
    location, and both are marked as assigned to it the way the "assign"
    command does, the detector's integrity checks report nothing for either
    of them, provided the detector resolves the project id to the same
    mission and "Assigned" does not read as "maintenance". *)
Theorem accepted_recommendation_is_consistent (proj : str)
    (pilots drones missions : list record) (rec : AssignmentRecommendation)
    (p d mission : record) (mm : gmap str record) :
  recommend_assignment proj pilots drones missions = Ok rec ->
  pilot rec = Some p -> drone rec = Some d ->
  next_mission missions (Some proj) = Some mission ->
  build_mission_map missions = Ok mm -> mm !! proj = Some mission ->
  get_d mission "location" [] <> [] ->
  normalize_text (lit "Assigned") <> lit "maintenance" ->
  pilot_integrity_body mm [] (assign_to_project proj p) = []
  /\ drone_integrity_body mm [] (assign_to_project proj d) = [].
Proof.
  intros Hrec Hp Hd Hfound Hb Hmm Hloc Hst.
  unfold recommend_assignment in Hrec.
  rewrite (next_mission_truthy _ _ _ Hfound) in Hrec.
  destruct (eligible_pilots_loop _ _ _ _ _ _ pilots) as [eligible|e] eqn:He;
    simpl in Hrec; [|done].
  apply eligible_pilots_loop_spec in He as ->.
  injection Hrec as <-. simpl in Hp, Hd.
  apply head_elem_of, elem_of_filter in Hp as [_ Hp].
  rewrite filter_drones_filter in Hd.
  apply head_elem_of, elem_of_filter in Hd as [_ Hd].
  assert (if_truthy (Some mission) = Some mission) as Htruthy.
  { apply next_mission_Some in Hfound as [_ Hid]. by eapply if_truthy_field. }
  split.
  - unfold pilot_eligible_b in Hp.
    rewrite !andb_true_iff, !bool_decide_eq_true in Hp.
    destruct Hp as ((((_ & Hl) & Hs) & Hc) & _).
    unfold pilot_integrity_body. rewrite assign_to_project_assignment.
    destruct (_is_empty_assignment (Some proj)); [done|].
    simpl. rewrite Hmm, Htruthy. unfold lowered_list.
    rewrite !assign_to_project_other by done.
    rewrite (bool_decide_eq_true_2 _ Hs), (bool_decide_eq_true_2 _ Hc),
      (bool_decide_eq_true_2 _ Hl). done.
  - unfold drone_matches, tag_accepts, location_accepts in Hd.
    fold (derived_capability mission) in Hd.
    rewrite (derived_capability_truthy mission) in Hd.
    destruct (get_d mission "location" []) as [|c loc] eqn:Eloc; [done|].
    simpl in Hd. rewrite !andb_true_iff, !bool_decide_eq_true in Hd.
    destruct Hd as ((_ & Hcap) & Hl).
    unfold drone_integrity_body. rewrite assign_to_project_assignment.
    destruct (_is_empty_assignment (Some proj)); [done|].
    simpl. rewrite Hmm, Htruthy. unfold lowered_list, required_cap in *.
    rewrite assign_to_project_status.
    rewrite !assign_to_project_other by done.
    rewrite (bool_decide_eq_false_2 _ Hst).
    fold (derived_capability mission). rewrite (bool_decide_eq_true_2 _ Hcap).
    rewrite bool_decide_eq_true_2; [done|].
    transitivity (strip (normalize_text (get_d d "location" []))).
    + unfold normalize_text. by rewrite strip_idem.
    + by rewrite Hl, Eloc.
Qed.

(** *** Reading a request *)

Lemma is_prefix_spec (p s : str) :
  is_prefix p s = true <-> exists b, s = p ++ b.
Proof.
  revert s. induction p as [|a p IH]; intros s; simpl.
  - split; [by exists s|done].
  - destruct s as [|c s]; [split; [done|by intros [b Hb]]|].
    rewrite andb_true_iff, N.eqb_eq, IH. split.
    + intros [-> [b ->]]. by exists b.
    + intros [b [= -> ->]]. eauto.
Qed.

Lemma is_prefix_infix (n h : str) : is_prefix n h = true -> is_infix n h = true.
Proof. intros H. destruct h; simpl in *; by rewrite H. Qed.

Lemma is_infix_cons (n h : str) (c : N) :
  is_infix n h = true -> is_infix n (c :: h) = true.
Proof. intros H. simpl. rewrite H. apply orb_true_r. Qed.

Lemma is_infix_spec (n h : str) :
  is_infix n h = true <-> exists a b, h = a ++ n ++ b.
Proof.
  induction h as [|c h IH].
  - simpl. rewrite orb_false_r, is_prefix_spec. split.
    + intros [b Hb]. by exists [], b.
    + intros (a & b & Hab). destruct a; [by exists b|done].
  - change (is_infix n (c :: h)) with (is_prefix n (c :: h) || is_infix n h).
    rewrite orb_true_iff, is_prefix_spec, IH. split.
    + intros [[b Hb]|(a & b & ->)]; [by exists [], b|by exists (c :: a), b].
    + intros ([|c' a] & b & Hab); [left; by exists b|].
      injection Hab as -> ->. right. eauto.
Qed.

(** A text that contains a string contains every end of it. *)
Lemma is_infix_drop (m n h : str) :
  is_infix (m ++ n) h = true -> is_infix n h = true.
Proof.
  rewrite !is_infix_spec. intros (a & b & ->).
  exists (a ++ m), b. by rewrite <- !app_assoc.
Qed.

(** X13: [_extract_status] never answers "Unavailable".  The statuses are
    tried in the order Available, On Leave, Unavailable, ..., and a text
    that mentions "unavailable" mentions "available", so such a text is read
    as "Available". *)
Theorem extract_status_never_unavailable (text : str) :
  str_lower (lit "Available") = lit "available" ->
  str_lower (lit "Unavailable") = lit "unavailable" ->
  _extract_status text <> Some (lit "Unavailable")
  /\ (is_infix (lit "unavailable") (str_lower text) = true ->
      _extract_status text = Some (lit "Available")).
Proof.
  intros Ha Hu. unfold _extract_status, List.find. rewrite Ha, Hu.
  destruct (is_infix (lit "available") (str_lower text)) eqn:E.
  - split; [|done]. intros H. vm_compute in H. discriminate H.
  - assert (is_infix (lit "unavailable") (str_lower text) = false) as ->.
    { destruct (is_infix (lit "unavailable") _) eqn:E'; [|done].
      change (lit "unavailable") with (lit "un" ++ lit "available") in E'.
      apply is_infix_drop in E'. congruence. }
    split; [|done].
    destruct (is_infix (str_lower (lit "On Leave")) _);
      [intros H; vm_compute in H; discriminate H|].
    destruct (is_infix (str_lower (lit "Assigned")) _);
      [intros H; vm_compute in H; discriminate H|].
    destruct (is_infix (str_lower (lit "Maintenance")) _);
      [intros H; vm_compute in H; discriminate H|done].
Qed.

Lemma findall_letters_infix (s : str) :
  (forall t, t ∈ findall_letters s -> is_infix t s = true)
  /\ (forall c s', s = c :: s' -> is_ascii_letter c = true ->
        exists run rest, findall_letters s = run :: rest /\ is_prefix run s = true).
Proof.
  induction s as [|c s [IHin IHhead]]; [split; [by intros t ?%elem_of_nil|done]|].
  cbn [findall_letters]. destruct (is_ascii_letter c) eqn:Hc.
  - destruct s as [|c' s'].
    + split.
      * intros t ->%list_elem_of_singleton. simpl. by rewrite N.eqb_refl.
      * intros ? ? [= <- <-] _. exists [c], []. simpl. by rewrite N.eqb_refl.
    + destruct (is_ascii_letter c') eqn:Hc'.
      * destruct (IHhead c' s' eq_refl Hc') as (run & rest & Hrun & Hpre).
        rewrite Hrun in *. split.
        -- intros t [->|Ht]%elem_of_cons.
           ++ apply is_prefix_infix. simpl. by rewrite N.eqb_refl.
           ++ apply is_infix_cons, IHin. by right.
        -- intros ? ? [= <- <-] _. exists (c :: run), rest.
           split; [done|]. simpl. by rewrite N.eqb_refl.
      * split.
        -- intros t [->|Ht]%elem_of_cons.
           ++ apply is_prefix_infix. simpl. by rewrite N.eqb_refl.
           ++ by apply is_infix_cons, IHin.
        -- intros ? ? [= <- <-] _. exists [c], (findall_letters (c' :: s')).
           split; [done|]. simpl. by rewrite N.eqb_refl.
  - split; [|by intros ? ? [= <- <-]; congruence].
    intros t Ht. by apply is_infix_cons, IHin.
Qed.

Lemma existsb_find_None {A : Type} (f : A -> bool) (l : list A) :
  List.find f l = None <-> existsb f l = false.
Proof.
  induction l as [|x l IH]; simpl; [done|]. destruct (f x); [done|]. apply IH.
Qed.

(** X14: [_extract_pilot_by_name] finds a pilot exactly when
    [_mentions_pilot_name] says a pilot is mentioned; the pilot found is one
    of the list, with a non-empty name that occurs in the lower-cased text;
    and if some pilot's name is a whole word of the text then so is the name
    of the pilot found. *)
Theorem extract_pilot_by_name_agrees (text : str) (pilots : list record) :
  (_extract_pilot_by_name text pilots = None
   <-> _mentions_pilot_name text pilots = false)
  /\ (forall p, _extract_pilot_by_name text pilots = Some p ->
        p ∈ pilots /\ pilot_name p <> []
        /\ is_infix (pilot_name p) (str_lower text) = true
        /\ ((exists q, q ∈ pilots /\ pilot_name q <> []
                       /\ pilot_name q ∈ findall_letters (str_lower text))
            -> pilot_name p ∈ findall_letters (str_lower text))).
Proof.
  unfold _extract_pilot_by_name, _mentions_pilot_name.
  set (lower := str_lower text). set (tokens := findall_letters lower).
  set (word := fun p => str_truthy (pilot_name p) && bool_decide (pilot_name p ∈ tokens)).
  set (hit := fun p => str_truthy (pilot_name p) && is_infix (pilot_name p) lower).
  rewrite (fold_left_select _ word).
  2: { intros acc p. unfold word. simpl.
       destruct (str_truthy (pilot_name p)); simpl; [|done].
       by destruct (bool_decide _). }
  simpl.
  assert (forall p, word p = true -> hit p = true) as Hword.
  { intros p [Ht Hin]%andb_true_iff. unfold hit. rewrite Ht. simpl.
    apply bool_decide_eq_true in Hin. by apply (findall_letters_infix lower). }
  assert (forall p, str_truthy (pilot_name p) = true -> pilot_name p <> []) as Hne.
  { intros p H. by destruct (pilot_name p). }
  destruct (List.filter word pilots) as [|p0 rest] eqn:Ew.
  - split; [apply existsb_find_None|].
    intros p Hp. apply find_some in Hp as [Hin [Ht Hi]%andb_true_iff].
    repeat split; [by apply list_elem_of_In|by apply Hne|done|].
    intros (q & Hq & Hqn & Hqt). exfalso.
    assert (q ∈ List.filter word pilots) as Hf.
    { apply elem_of_filter. split; [done|]. unfold word.
      rewrite bool_decide_eq_true_2 by done. by destruct (pilot_name q). }
    rewrite Ew in Hf. by apply elem_of_nil in Hf.
  - assert (p0 ∈ List.filter word pilots) as [Hin Hw]%elem_of_filter
        by (rewrite Ew; left).
    split.
    + split; [done|]. intros Hex. exfalso.
      apply list_elem_of_In in Hin.
      assert (existsb hit pilots = true) as Ht; [|congruence].
      apply existsb_exists. exists p0. split; [done|by apply Hword].
    + intros p [= <-]. pose proof (Hword _ Hw) as [Ht Hi]%andb_true_iff.
      apply andb_true_iff in Hw as [_ Htok%bool_decide_eq_true].
      repeat split; [done|by apply Hne|done|done].
Qed.

(** *** Applying an assignment *)

Lemma mark_loop_map (key : string) (c : record) (proj : str) (entities : list record)
    (acc : list record) (updated : bool) :
  fold_left (fun st e =>
               if bool_decide (e !! key = c !! key)
               then (st.1 ++ [assign_to_project proj e], true)
               else (st.1 ++ [e], st.2))
            entities (acc, updated)
  = (acc ++ map (fun e => if bool_decide (e !! key = c !! key)
                          then assign_to_project proj e else e) entities,
     updated || existsb (fun e => bool_decide (e !! key = c !! key)) entities).
Proof.
  revert acc updated. induction entities as [|e l IH]; intros acc updated; simpl.
  - by rewrite app_nil_r, orb_false_r.
  - destruct (bool_decide (e !! key = c !! key)); simpl; rewrite IH, <- app_assoc; simpl.
    + by rewrite orb_true_r.
    + done.
Qed.

Lemma assigned_not_available (proj : str) (e : record) :
  normalize_text (lit "Assigned") <> lit "available" ->
  is_available (assign_to_project proj e) = false.
Proof.
  intros H. unfold is_available. rewrite assign_to_project_status.
  by apply bool_decide_eq_false.
Qed.

Lemma filter_marked (keep same : record -> bool) (proj : str) (l : list record) :
  (forall e, keep (assign_to_project proj e) = false) ->
  List.filter keep (map (fun e => if same e then assign_to_project proj e else e) l)
  = List.filter (fun e => negb (same e)) (List.filter keep l).
Proof.
  intros Hk. induction l as [|e l IH]; simpl; [done|].
  destruct (same e) eqn:Hs; simpl.
  - rewrite Hk, IH. destruct (keep e); simpl; [by rewrite Hs|done].
  - rewrite IH. destruct (keep e); simpl; [by rewrite Hs|done].
Qed.

(** X15: after the "assign" command has marked the chosen pilot and drone,
    the available pilots (drones) matching any criteria are the ones that
    matched before, less those carrying the chosen pilot's (drone's) id;
    and the command reports an update exactly when some entity carries a
    chosen id.  It needs "Assigned" not to read as "available". *)
Theorem assignment_removes_from_available (cp cd : record) (proj : str)
    (pilots drones : list record) (skill cert capability location : option str) :
  if_truthy (Some cp) = Some cp -> if_truthy (Some cd) = Some cd ->
  normalize_text (lit "Assigned") <> lit "available" ->
  let marked_pilots := mark_assigned "pilot_id" (Some cp) proj pilots false in
  let marked_drones := mark_assigned "drone_id" (Some cd) proj drones marked_pilots.2 in
  filter_pilots marked_pilots.1 skill cert location true
    = List.filter (fun p => negb (bool_decide (p !! "pilot_id" = cp !! "pilot_id")))
                  (filter_pilots pilots skill cert location true)
  /\ filter_drones marked_drones.1 capability location true
    = List.filter (fun d => negb (bool_decide (d !! "drone_id" = cd !! "drone_id")))
                  (filter_drones drones capability location true)
  /\ marked_drones.2
    = existsb (fun p => bool_decide (p !! "pilot_id" = cp !! "pilot_id")) pilots
      || existsb (fun d => bool_decide (d !! "drone_id" = cd !! "drone_id")) drones.
Proof.
  intros Hcp Hcd Hst. unfold mark_assigned. rewrite Hcp, Hcd, !mark_loop_map. simpl.
  rewrite !filter_pilots_filter, !filter_drones_filter.
  repeat split.
  - apply (filter_marked _ (fun p => bool_decide (p !! "pilot_id" = cp !! "pilot_id"))).
    intros e. unfold pilot_matches. by rewrite assigned_not_available.
  - apply (filter_marked _ (fun d => bool_decide (d !! "drone_id" = cd !! "drone_id"))).
    intros e. unfold drone_matches. by rewrite assigned_not_available.
Qed.

(** X16: the command layer's own test for "not currently assigned" is the
    stricter one: what it calls unassigned is an empty assignment for the
    engine, and the two tests agree on values without surrounding white
    space. *)
Theorem reads_unassigned_is_empty (assignment : option str) :
  (reads_unassigned assignment = true -> _is_empty_assignment assignment = true)
  /\ (forall v, assignment = Some v -> strip v = v ->
        _is_empty_assignment assignment = reads_unassigned assignment).
Proof.
  assert (forall v : str, strip v = v ->
            _is_empty_assignment (Some v) = reads_unassigned (Some v)) as Hagree.
  { intros v Hv. unfold _is_empty_assignment, reads_unassigned. rewrite Hv.
    destruct v as [|c v].
    - rewrite bool_decide_eq_true_2; [done|left].
    - cbn [str_truthy negb orb]. apply bool_decide_ext. unfold empty_spellings.
      rewrite !elem_of_cons, !elem_of_nil. intuition congruence. }
  split; [|by intros v -> Hv; apply Hagree].
  destruct assignment as [v|]; [|done]. simpl.
  intros [Hv|Hv%bool_decide_eq_true]%orb_true_iff; apply bool_decide_eq_true.
  - destruct v; [left|done].
  - unfold empty_spellings.
    rewrite !elem_of_cons, elem_of_nil in Hv.
    destruct Hv as [->|[->|[->|[]]]]; vm_compute; set_solver.
Qed.

(** *** The recommender on an unassigned roster *)

Lemma pilot_step_unassigned missions required_skill required_cert location start end_
    (eligible : list record) (p : record) :
  _is_empty_assignment (p !! "current_assignment") = true ->
  pilot_step missions required_skill required_cert location start end_ eligible p
  = Ok (if is_available p
           && bool_decide (normalize_text (get_d p "location" []) = normalize_text location)
           && bool_decide (normalize_text required_skill ∈ lowered_list p "skills")
           && bool_decide (normalize_text required_cert ∈ lowered_list p "certifications")
        then eligible ++ [p] else eligible).
Proof.
  intros He. unfold pilot_step. rewrite He. simpl.
  destruct (is_available p); simpl; [|done].
  destruct (bool_decide (normalize_text (get_d p "location" []) = _)); simpl; [|done].
  destruct (bool_decide (_ ∈ lowered_list p "skills")); simpl; [|done].
  by destruct (bool_decide (_ ∈ lowered_list p "certifications")).
Qed.

Lemma foldM_select_in {A : Type} (f : list A -> A -> result (list A)) (keep : A -> bool)
    (l : list A) :
  (forall x acc, x ∈ l -> f acc x = Ok (if keep x then acc ++ [x] else acc)) ->
  forall acc, foldM f acc l = Ok (acc ++ List.filter keep l).
Proof.
  induction l as [|x l IH]; intros Hf acc; simpl.
  - by rewrite app_nil_r.
  - rewrite Hf by left. simpl. rewrite IH.
    + destruct (keep x); [|done]. by rewrite <- app_assoc.
    + intros y b Hy. apply Hf. by right.
Qed.

Lemma filter_ext_elem_of {A : Type} (f g : A -> bool) (l : list A) :
  (forall x, x ∈ l -> f x = g x) -> List.filter f l = List.filter g l.
Proof.
  intros H. apply filter_ext_in. intros x Hx. by apply H, list_elem_of_In.
Qed.

(** X17: on a roster in which no pilot holds an assignment, and for a found
    mission whose required skill, required certification and location are
    non-empty and free of surrounding white space, [recommend_assignment]
    returns, whatever the dates, and its pilot is the first pilot
    [filter_pilots] returns for those three criteria. *)
Theorem recommend_agrees_with_filter_pilots (proj : str)
    (pilots drones missions : list record) (mission : record) :
  next_mission missions (Some proj) = Some mission ->
  forallb (fun p => _is_empty_assignment (p !! "current_assignment")) pilots = true ->
  get_d mission "required_skills" [] <> [] ->
  get_d mission "required_certs" [] <> [] ->
  get_d mission "location" [] <> [] ->
  normalize_text (get_d mission "required_skills" [])
    = str_lower (get_d mission "required_skills" []) ->
  normalize_text (get_d mission "required_certs" [])
    = str_lower (get_d mission "required_certs" []) ->
  normalize_text (get_d mission "location" [])
    = str_lower (get_d mission "location" []) ->
  exists rec,
    recommend_assignment proj pilots drones missions = Ok rec
    /\ pilot rec = head (filter_pilots pilots
                           (Some (get_d mission "required_skills" []))
                           (Some (get_d mission "required_certs" []))
                           (Some (get_d mission "location" [])) true).
Proof.
  intros Hfound Hun Hs Hc Hl Hns Hnc Hnl. unfold recommend_assignment.
  rewrite (next_mission_truthy _ _ _ Hfound). unfold eligible_pilots_loop.
  rewrite (foldM_select_in _
             (fun p => is_available p
                && bool_decide (normalize_text (get_d p "location" [])
                                = normalize_text (get_d mission "location" []))
                && bool_decide (normalize_text (get_d mission "required_skills" [])
                                ∈ lowered_list p "skills")
                && bool_decide (normalize_text (get_d mission "required_certs" [])
                                ∈ lowered_list p "certifications"))).
  2: { intros p acc Hp. apply pilot_step_unassigned.
       by apply (forallb_elem_of _ _ _ Hun). }
  simpl. eexists. split; [reflexivity|]. simpl.
  rewrite filter_pilots_filter. f_equal. apply filter_ext_elem_of. intros p _.
  unfold pilot_matches, tag_accepts, location_accepts. rewrite Hns, Hnc, Hnl.
  destruct (get_d mission "required_skills" []); [done|].
  destruct (get_d mission "required_certs" []); [done|].
  destruct (get_d mission "location" []); [done|]. simpl.
  destruct (is_available p), (bool_decide (normalize_text _ = _)),
    (bool_decide (_ ∈ lowered_list p "skills")),
    (bool_decide (_ ∈ lowered_list p "certifications")); done.
Qed.

(** *** The size of a conflict report *)

Lemma length_flat_map_le {A B : Type} (g : A -> list B) (k : nat) (l : list A) :
  (forall x, (length (g x) <= k)%nat) -> (length (flat_map g l) <= k * length l)%nat.
Proof.
  intros H. induction l as [|x l IH]; simpl; [lia|].
  rewrite length_app. specialize (H x). lia.
Qed.

Lemma mapM_result_length {A B : Type} (g : A -> result (list B)) (l : list A)
    (rs : list (list B)) :
  (forall x r, g x = Ok r -> (length r <= 1)%nat) ->
  mapM g l = Ok rs -> (length (concat rs) <= length l)%nat.
Proof.
  intros Hg. revert rs. induction l as [|x l IH]; intros rs; simpl.
  - intros [= <-]. simpl. lia.
  - destruct (g x) as [r|] eqn:E; simpl; [|done].
    destruct (mapM g l) as [rs'|]; simpl; [|done].
    intros [= <-]. simpl. rewrite length_app.
    specialize (Hg x r E). specialize (IH rs' eq_refl). lia.
Qed.

Lemma overlap_scan_length p assignment m1 ms r :
  overlap_scan [] p assignment m1 ms = Ok r -> (length r <= 1)%nat.
Proof.
  induction ms as [|m2 ms IH]; simpl; [intros [= <-]; simpl; lia|].
  destruct (index m2 "project_id"); simpl; [|done].
  destruct (index m1 "project_id"); simpl; [|done].
  destruct (bool_decide _); [done|].
  destruct (index m1 "start_date"); simpl; [|done].
  destruct (index m1 "end_date"); simpl; [|done].
  destruct (index m2 "start_date"); simpl; [|done].
  destruct (index m2 "end_date"); simpl; [|done].
  destruct (_overlaps _ _ _ _) as [[|]|]; simpl; [|done|done].
  destruct (bool_decide _); intros [= <-]; simpl; lia.
Qed.

Ltac count_appends :=
  repeat match goal with
         | |- context [if ?b then _ else _] => destruct b
         end;
  simpl; rewrite ?length_app; simpl; lia.

(** X18: a conflict report is bounded by the fleet: at most three integrity
    lines, one overlap line and one colocation line per pilot, and at most
    three integrity lines per drone. *)
Theorem conflict_report_is_bounded (pilots drones missions : list record)
    (out : list str) :
  detect_conflicts pilots drones missions = Ok out ->
  (length out <= 5 * length pilots + 3 * length drones)%nat.
Proof.
  unfold detect_conflicts.
  destruct (build_mission_map missions) as [mm|e]; simpl; [|done].
  rewrite (fold_left_flat _ _ (pilot_integrity_body_app mm)).
  rewrite (fold_left_flat _ _ (drone_integrity_body_app mm)).
  rewrite (foldM_flat _ _ (overlap_body_app mm missions)).
  destruct (mapM _ pilots) as [overlaps|e] eqn:Eo; simpl; [|done].
  rewrite (fold_left_flat _ _ (colocation_body_app _)).
  intros [= <-]. rewrite !length_app.
  pose proof (length_flat_map_le (pilot_integrity_body mm []) 3 pilots) as H1.
  pose proof (length_flat_map_le (drone_integrity_body mm []) 3 drones) as H2.
  pose proof (length_flat_map_le
                (colocation_body (build_drone_by_assignment drones) []) 1 pilots) as H3.
  assert (Hp : forall p, (length (pilot_integrity_body mm [] p) <= 3)%nat).
  { intros p. unfold pilot_integrity_body.
    destruct (negb _); [|simpl; lia].
    destruct (if_truthy _); [|simpl; lia]. count_appends. }
  assert (Hd : forall d, (length (drone_integrity_body mm [] d) <= 3)%nat).
  { intros d. unfold drone_integrity_body.
    destruct (negb _); [|simpl; lia].
    destruct (if_truthy _); [|simpl; lia]. count_appends. }
  assert (Hc : forall p,
             (length (colocation_body (build_drone_by_assignment drones) [] p) <= 1)%nat).
  { intros p. unfold colocation_body.
    destruct (negb _); [|simpl; lia].
    destruct (map_get _ _); [|simpl; lia]. count_appends. }
  specialize (H1 Hp). specialize (H2 Hd). specialize (H3 Hc).
  assert (length (concat overlaps) <= length pilots)%nat as H5.
  { apply (mapM_result_length (overlap_body mm missions []) pilots); [|done].
    intros p r. unfold overlap_body.
    destruct (_is_empty_assignment _); [intros [= <-]; simpl; lia|].
    destruct (if_truthy _); [|intros [= <-]; simpl; lia].
    apply overlap_scan_length. }
  simpl in *. lia.
Qed.

(** *** What can be raised *)

Lemma pilot_step_raise missions required_skill required_cert location start end_
    (eligible : list record) (p : record) (e : exn) :
  pilot_step missions required_skill required_cert location start end_ eligible p
  = Raise e ->
  date_error e /\ _is_empty_assignment (p !! "current_assignment") = false.
Proof.
  unfold pilot_step, date_error.
  destruct (negb (is_available p)); [done|].
  destruct (negb (bool_decide (normalize_text (get_d p "location" []) = _))); [done|].
  destruct (negb (bool_decide (_ ∈ lowered_list p "skills"))); [done|].
  destruct (negb (bool_decide (_ ∈ lowered_list p "certifications"))); [done|].
  destruct (_is_empty_assignment _); [done|]. simpl.
  destruct (if_truthy _) as [assigned|]; [|done].
  destruct (index assigned "start_date") as [s|e1] eqn:E1; simpl.
  2: { apply index_Raise in E1 as [_ ->]. intros [= <-]. auto. }
  destruct (index assigned "end_date") as [f|e2] eqn:E2; simpl.
  2: { apply index_Raise in E2 as [_ ->]. intros [= <-]. auto. }
  destruct (_overlaps start end_ s f) as [[|]|e3] eqn:E3; simpl; [done|done|].
  apply overlaps_raise in E3 as [v ->]. intros [= <-]. eauto.
Qed.

Lemma recommend_assignment_raise project_id pilots drones missions (e : exn) :
  recommend_assignment project_id pilots drones missions = Raise e ->
  date_error e
  /\ exists p, p ∈ pilots /\ _is_empty_assignment (p !! "current_assignment") = false.
Proof.
  unfold recommend_assignment. destruct (if_truthy _) as [mission|]; [|done].
  unfold eligible_pilots_loop.
  destruct (foldM _ [] pilots) as [eligible|e'] eqn:E; simpl; [done|].
  intros [= ->]. apply foldM_raise in E as (acc & p & Hp & E).
  apply pilot_step_raise in E as [He Hp']. eauto.
Qed.

Lemma overlap_scan_raise acc p assignment m1 ms (e : exn) :
  overlap_scan acc p assignment m1 ms = Raise e ->
  e = KeyError "project_id" \/ date_error e.
Proof.
  unfold date_error. induction ms as [|m2 ms IH]; simpl; [done|].
  destruct (index m2 "project_id") as [id2|e1] eqn:E1; simpl.
  2: { apply index_Raise in E1 as [_ ->]. intros [= <-]. auto. }
  destruct (index m1 "project_id") as [id1|e2] eqn:E2; simpl.
  2: { apply index_Raise in E2 as [_ ->]. intros [= <-]. auto. }
  destruct (bool_decide (id2 = id1)); [done|].
  destruct (index m1 "start_date") as [s1|e3] eqn:E3; simpl.
  2: { apply index_Raise in E3 as [_ ->]. intros [= <-]. auto. }
  destruct (index m1 "end_date") as [f1|e4] eqn:E4; simpl.
  2: { apply index_Raise in E4 as [_ ->]. intros [= <-]. auto. }
  destruct (index m2 "start_date") as [s2|e5] eqn:E5; simpl.
  2: { apply index_Raise in E5 as [_ ->]. intros [= <-]. auto. }
  destruct (index m2 "end_date") as [f2|e6] eqn:E6; simpl.
  2: { apply index_Raise in E6 as [_ ->]. intros [= <-]. auto. }
  destruct (_overlaps s1 f1 s2 f2) as [[|]|e7] eqn:E7; simpl; [|done|].
  - by destruct (bool_decide _).
  - apply overlaps_raise in E7 as [v ->]. intros [= <-]. eauto.
Qed.

Lemma lower_scan_raise candidate lower pilots (e : exn) :
  lower_scan candidate lower pilots = Raise e -> e = KeyError "project_id".
Proof.
  revert candidate. induction lower as [|lm lower IH]; intros candidate; simpl; [done|].
  destruct (pilot_scan candidate lm pilots) as [c|e'] eqn:E; simpl.
  - destruct (rec_truthy c); [done|apply IH].
  - intros [= ->]. clear IH. induction pilots as [|p ps IHp]; simpl in E; [done|].
    destruct (index lm "project_id") as [k|e1] eqn:E1; simpl in E.
    + destruct (bool_decide _); [done|by apply IHp].
    + apply index_Raise in E1 as [_ ->]. by injection E as <-.
Qed.

(** X19: the errors of the engine.  [recommend_assignment] raises only an
    error of the date check, and only when some pilot holds a non-empty
    assignment; [detect_conflicts] and [urgent_reassignment_plan] raise only
    [KeyError("project_id")] or an error of the date check. *)
Theorem engine_errors (project_id : str) (pilots drones missions : list record)
    (e : exn) :
  (recommend_assignment project_id pilots drones missions = Raise e ->
     date_error e
     /\ exists p, p ∈ pilots /\ _is_empty_assignment (p !! "current_assignment") = false)
  /\ (detect_conflicts pilots drones missions = Raise e ->
     e = KeyError "project_id" \/ date_error e)
  /\ (urgent_reassignment_plan missions pilots drones = Raise e ->
     e = KeyError "project_id" \/ date_error e).
Proof.
  split; [apply recommend_assignment_raise|split].
  - unfold detect_conflicts.
    destruct (build_mission_map missions) as [mm|e'] eqn:E; simpl.
    + destruct (foldM _ _ pilots) as [conflicts|e''] eqn:E'; simpl; [done|].
      intros [= ->]. apply foldM_raise in E' as (acc & p & _ & E').
      unfold overlap_body in E'. destruct (_is_empty_assignment _); [done|].
      destruct (if_truthy _); [|done]. by apply overlap_scan_raise in E'.
    + intros [= ->]. apply build_mission_map_raise in E as [-> _]. by left.
  - unfold urgent_reassignment_plan. destruct (bool_decide _); [done|].
    intros (acc & m & _ & E)%foldM_raise. unfold plan_body in E.
    destruct (index m "project_id") as [pid|e1] eqn:E1; simpl in E.
    2: { apply index_Raise in E1 as [_ ->]. injection E as <-. by left. }
    destruct (recommend_assignment pid pilots drones missions) as [rec|e2] eqn:E2;
      simpl in E.
    2: { injection E as <-. apply recommend_assignment_raise in E2 as [? _]. by right. }
    destruct (coverable rec); [done|].
    destruct (lower_scan None _ pilots) as [c|e3] eqn:E3; simpl in E.
    + by destruct (if_truthy c).
    + injection E as <-. apply lower_scan_raise in E3 as ->. by left.
Qed.

(** *** The eligibility rule and the loop *)

Lemma starts_clean_lstrip (s : str) : starts_clean s -> lstrip s = s.
Proof.
  destruct s as [|c t]; [done|]. intros H. apply lstrip_fixed. by eapply H.
Qed.

Lemma ends_clean_rstrip (s : str) : ends_clean s -> rstrip s = s.
Proof.
  intros H. unfold rstrip. destruct (rev s) as [|c t] eqn:E.
  - apply (f_equal (@rev N)) in E. by rewrite rev_involutive in E.
  - rewrite lstrip_fixed, <- E, rev_involutive; [done|].
    apply (H (rev t)). apply (f_equal (@rev N)) in E.
    by rewrite rev_involutive in E.
Qed.

Lemma strip_trimmed (s : str) : trimmed_of s (strip s).
Proof.
  destruct (lstrip_decomp s) as (ws1 & Hs & Hws1).
  destruct (rstrip_decomp (lstrip s)) as (ws2 & Ht & Hws2).
  exists ws1, ws2. repeat split; [|done|done| |].
  - rewrite Hs at 1. by rewrite Ht at 1.
  - intros c t E. by apply strip_head in E.
  - intros t c E. unfold strip, rstrip in E.
    apply (f_equal (@rev N)) in E. rewrite rev_involutive, rev_app_distr in E.
    simpl in E. by apply lstrip_head in E.
Qed.

Lemma trimmed_strip (s core : str) : trimmed_of s core -> strip s = core.
Proof.
  intros (ws1 & ws2 & -> & H1 & H2 & Hs & He).
  rewrite strip_padding by done. unfold strip.
  by rewrite starts_clean_lstrip, ends_clean_rstrip.
Qed.

Lemma trimmed_of_strip (s core : str) : trimmed_of s core <-> strip s = core.
Proof. split; [apply trimmed_strip|intros <-; apply strip_trimmed]. Qed.

Lemma split_nonempty (sep : N) (s : str) : split sep s <> [].
Proof. apply split_pieces. Qed.

Lemma join_split (s : str) : join_comma (split comma s) = s.
Proof.
  induction s as [|c s IH]; [done|]. cbn [split].
  pose proof (split_nonempty comma s) as Hne.
  destruct (N.eqb c comma) eqn:E.
  - apply N.eqb_eq in E as ->. cbn [join_comma].
    destruct (split comma s); [done|]. by rewrite IH.
  - destruct (split comma s) as [|w ws]; [done|]. cbn [join_comma] in *.
    destruct ws; by rewrite <- IH.
Qed.

Lemma join_app_cons (l1 l2 : list str) (x : str) :
  join_comma (l1 ++ x :: l2)
  = match l1 with [] => [] | _ :: _ => join_comma l1 ++ [comma] end
    ++ x ++ match l2 with [] => [] | _ :: _ => comma :: join_comma l2 end.
Proof.
  induction l1 as [|y l1 IH].
  - simpl. destruct l2; [by rewrite app_nil_r|done].
  - change ((y :: l1) ++ x :: l2) with (y :: (l1 ++ x :: l2)).
    cbn [join_comma]. destruct (l1 ++ x :: l2) as [|z l] eqn:E.
    { by destruct l1. }
    rewrite IH. destruct l1 as [|z' l1']; simpl; by rewrite <- ?app_assoc.
Qed.

Lemma split_app (a b : str) :
  split comma (a ++ comma :: b) = split comma a ++ split comma b.
Proof.
  induction a as [|c a IH]; simpl; [done|].
  destruct (N.eqb c comma); [by rewrite IH|].
  rewrite IH. pose proof (split_nonempty comma a) as Hne.
  by destruct (split comma a).
Qed.

Lemma split_no_comma (e : str) : comma ∉ e -> split comma e = [e].
Proof.
  induction e as [|c e IH]; [done|]. intros Hc. simpl.
  destruct (N.eqb_spec c comma) as [->|_]; [exfalso; apply Hc; left|].
  rewrite IH; [done|]. intros H. apply Hc. by right.
Qed.

Lemma comma_entry_split (field entry : str) :
  comma_entry field entry <-> entry ∈ split comma field.
Proof.
  split.
  - intros (Hc & before & after & -> & Hb & Ha).
    pose proof (split_no_comma entry Hc) as He.
    destruct Hb as [->|[b ->]], Ha as [->|[a ->]]; rewrite <- ?app_assoc; simpl.
    + rewrite app_nil_r, He. left.
    + rewrite split_app, He. left.
    + rewrite app_nil_r, split_app, He. apply elem_of_app. right. left.
    + rewrite !split_app, He. apply elem_of_app. right. left.
  - intros Hin. split; [by apply (split_pieces comma field)|].
    apply list_elem_of_split in Hin as (l1 & l2 & Hl).
    pose proof (join_split field) as Hj. rewrite Hl, join_app_cons in Hj.
    eexists _, _. split; [symmetry; exact Hj|]. split.
    + destruct l1; [by left|right; eauto].
    + destruct l2; [by left|right; eauto].
Qed.

Lemma has_tag_lowered (tag field : str) :
  has_tag tag field <-> normalize_text tag ∈ map str_lower (_split_list field).
Proof.
  unfold has_tag, folded, normalize_text, _split_list.
  rewrite list_elem_of_In, in_map_iff. split.
  - intros (entry & core & He%comma_entry_split & <-%trimmed_strip & Hne
            & Ht%trimmed_strip).
    exists (strip entry). split; [done|]. apply in_map_iff.
    exists entry. split; [done|]. apply filter_In.
    split; [by apply list_elem_of_In|]. by destruct (strip entry).
  - intros (item & Hl & (entry & <- & [Hin Hne]%filter_In)%in_map_iff).
    exists entry, (strip entry). repeat split.
    + by apply (split_pieces comma field), list_elem_of_In.
    + apply comma_entry_split. by apply list_elem_of_In.
    + apply strip_trimmed.
    + by destruct (strip entry).
    + apply trimmed_of_strip. by rewrite Hl.
Qed.

Lemma find_first_iff {A : Type} (f : A -> bool) (l : list A) (x : A) :
  List.find f l = Some x
  <-> exists before after,
        l = before ++ x :: after /\ f x = true /\ forall y, y ∈ before -> f y = false.
Proof.
  split.
  - induction l as [|y l IH]; simpl; [done|]. destruct (f y) eqn:E.
    + intros [= ->]. exists [], l. repeat split; [done|].
      by intros ? ?%elem_of_nil.
    + intros (before & after & -> & Hx & Hb)%IH.
      exists (y :: before), after. repeat split; [done|].
      intros z [->|Hz]%elem_of_cons; auto.
  - intros (before & after & -> & Hx & Hb).
    induction before as [|y before IH]; simpl; [by rewrite Hx|].
    rewrite (Hb y) by left. apply IH. intros z Hz. apply Hb. by right.
Qed.

Lemma first_with_id_next (missions : list record) (id : str) (m : record) :
  first_with_id missions id m <-> next_mission missions (Some id) = Some m.
Proof.
  unfold first_with_id, next_mission. rewrite find_first_iff.
  split; intros (before & after & -> & Hm & Hb); exists before, after.
  - repeat split; [by apply bool_decide_eq_true|].
    intros y Hy. apply bool_decide_eq_false. by apply Hb.
  - apply bool_decide_eq_true in Hm. repeat split; [done|].
    intros y Hy. specialize (Hb y Hy). by apply bool_decide_eq_false in Hb.
Qed.

Lemma unassigned_spelling_strip (a : str) :
  unassigned_spelling a <-> strip a ∈ empty_spellings.
Proof.
  unfold unassigned_spelling, empty_spellings.
  rewrite !elem_of_cons, elem_of_nil. split.
  - intros (core & <-%trimmed_strip & H). tauto.
  - intros H. exists (strip a). split; [apply strip_trimmed|tauto].
Qed.

Lemma holds_overlapping_assignment_conflict missions mission p :
  holds_overlapping_assignment missions mission p
  <-> temporal_conflict missions mission p.
Proof.
  unfold holds_overlapping_assignment, temporal_conflict.
  split; intros (a & assigned & Ha & Hne & Hf & Ho); exists a, assigned.
  - rewrite unassigned_spelling_strip in Hne.
    by apply first_with_id_next in Hf.
  - rewrite unassigned_spelling_strip. by apply first_with_id_next in Hf.
Qed.

Lemma pilot_qualifies_eligible missions mission p :
  pilot_qualifies missions mission p <-> pilot_eligible missions mission p.
Proof.
  unfold pilot_qualifies, pilot_eligible, folded.
  rewrite !has_tag_lowered, holds_overlapping_assignment_conflict,
    trimmed_of_strip.
  fold (lowered_list p "skills") (lowered_list p "certifications").
  fold (normalize_text (get_d p "status" [])).
  assert ((exists t, trimmed_of (str_lower (get_d p "location" [])) t
                     /\ trimmed_of (str_lower (get_d mission "location" [])) t)
          <-> normalize_text (get_d p "location" [])
              = normalize_text (get_d mission "location" [])) as ->; [|done].
  unfold normalize_text. split.
  - by intros (t & <-%trimmed_strip & <-%trimmed_strip).
  - intros H. exists (strip (str_lower (get_d p "location" []))).
    split; [apply strip_trimmed|]. rewrite H. apply strip_trimmed.
Qed.

(** C1: when the mission is found, the pilots the recommender holds
    eligible are exactly the pilots of the input whose status is
    "available", whose location is the mission's, whose comma-separated
    skills and certifications contain what the mission requires (all four
    case-insensitively), and who do not hold a non-empty current assignment
    referring to an existing mission whose dates overlap the mission's. *)
Theorem eligible_pilots_iff (project_id : str) (pilots drones missions : list record)
    (mission : record) :
  next_mission missions (Some project_id) = Some mission ->
  let loop :=
    eligible_pilots_loop missions
      (get_d mission "required_skills" []) (get_d mission "required_certs" [])
      (get_d mission "location" [])
      (get_d mission "start_date" []) (get_d mission "end_date" []) pilots in
  (forallb dates_ok missions = true -> exists eligible, loop = Ok eligible)
  /\ (forall eligible, loop = Ok eligible ->
        eligible `sublist_of` pilots
        /\ forall p, p ∈ eligible <-> p ∈ pilots /\ pilot_qualifies missions mission p)
  /\ (forall rec, recommend_assignment project_id pilots drones missions = Ok rec ->
        exists eligible, loop = Ok eligible /\ pilot rec = head eligible).
Proof.
  intros Hfound loop.
  destruct (eligible_pilots_loop_iff project_id pilots drones missions mission Hfound)
    as (Htotal & Hspec & Hrec).
  split; [exact Htotal|split; [|exact Hrec]].
  intros eligible [Hsub Hiff]%Hspec. split; [done|].
  intros p. by rewrite Hiff, pilot_qualifies_eligible.
Qed.

End Engine.

(** ** The engine at work on the sample fleet *)

Lemma prj001_found :
  next_mission [prj001; prj002; prj003] (Some (lit "PRJ001")) = Some prj001.
Proof.
  unfold next_mission, List.find.
  assert (bool_decide (prj001 !! "project_id" = Some (lit "PRJ001")) = true) as ->
    by (vm_compute; reflexivity).
  reflexivity.
Qed.

Lemma sample_dates_ok : forallb (dates_ok iso_parse) [prj001; prj002; prj003] = true.
Proof. vm_compute. reflexivity. Qed.

Lemma overlaps_iff_both_le_witness :
  _overlaps iso_parse (lit "2024-01-01") (lit "2024-01-10")
            (lit "2024-01-05") (lit "2024-01-15") = Ok true
  /\ _overlaps iso_parse (lit "2024-01-01") (lit "2024-01-10")
               (lit "2024-01-11") (lit "2024-01-20") = Ok false
  /\ _overlaps iso_parse (lit "2024-01-01") (lit "2024-01-10")
               (lit "2024-01-10") (lit "2024-01-20") = Ok true.
Proof.
  split; [|split].
  - exact (overlaps_iff_both_le iso_parse
             (lit "2024-01-01") (lit "2024-01-10") (lit "2024-01-05") (lit "2024-01-15")
             (midnight 2024 1 1) (midnight 2024 1 10)
             (midnight 2024 1 5) (midnight 2024 1 15)
             eq_refl eq_refl eq_refl eq_refl).
  - exact (overlaps_iff_both_le iso_parse
             (lit "2024-01-01") (lit "2024-01-10") (lit "2024-01-11") (lit "2024-01-20")
             (midnight 2024 1 1) (midnight 2024 1 10)
             (midnight 2024 1 11) (midnight 2024 1 20)
             eq_refl eq_refl eq_refl eq_refl).
  - exact (overlaps_iff_both_le iso_parse
             (lit "2024-01-01") (lit "2024-01-10") (lit "2024-01-10") (lit "2024-01-20")
             (midnight 2024 1 1) (midnight 2024 1 10)
             (midnight 2024 1 10) (midnight 2024 1 20)
             eq_refl eq_refl eq_refl eq_refl).
Defined.

Lemma recommend_unknown_project_witness :
  recommend_assignment ascii_lower iso_parse (lit "PRJ999")
    [neha; arjun; rohit] [drone_a; drone_b] [prj001; prj002; prj003]
  = Ok (mk_rec None None [lit "Unknown project: PRJ999"]).
Proof.
  apply (recommend_unknown_project ascii_lower iso_parse (lit "PRJ999")).
  intros m Hm.
  repeat (apply elem_of_cons in Hm as [->|Hm]; [vm_compute; discriminate|]).
  by apply elem_of_nil in Hm.
Defined.

Lemma recommend_first_match_witness :
  exists rec,
    recommend_assignment ascii_lower iso_parse (lit "PRJ001")
      [neha; arjun; rohit] [drone_a; drone_b] [prj001; prj002; prj003] = Ok rec
    /\ first_such (pilot_eligible ascii_lower iso_parse [prj001; prj002; prj003] prj001)
                  [neha; arjun; rohit] (pilot rec)
    /\ first_such (passes_drone_filter ascii_lower prj001) [drone_a; drone_b] (drone rec).
Proof.
  destruct (recommend_first_match ascii_lower iso_parse (lit "PRJ001")
              [neha; arjun; rohit] [drone_a; drone_b] [prj001; prj002; prj003] prj001)
    as (Htotal & Hspec & _).
  - exact prj001_found.
  - destruct Htotal as [rec Hrec]; [exact sample_dates_ok|].
    exists rec. split; [exact Hrec|]. by apply Hspec.
Defined.

Lemma issues_reflect_absence_witness :
  let rec := mk_rec None (Some drone_b)
               [lit "No available pilot meets skill, cert, and location requirements."] in
  recommend_assignment ascii_lower iso_parse (lit "PRJ001")
    [neha] [drone_a; drone_b] [prj001; prj002; prj003] = Ok rec
  /\ (pilot rec = None
      <-> lit "No available pilot meets skill, cert, and location requirements."
          ∈ issues rec)
  /\ (drone rec = None
      <-> lit "No available drone matches capability and location requirements."
          ∈ issues rec)
  /\ (issues rec = [] <-> is_Some (pilot rec) /\ is_Some (drone rec)).
Proof.
  intros rec.
  assert (recommend_assignment ascii_lower iso_parse (lit "PRJ001")
            [neha] [drone_a; drone_b] [prj001; prj002; prj003] = Ok rec) as Hrec.
  { vm_compute. reflexivity. }
  split; [exact Hrec|].
  apply (issues_reflect_absence ascii_lower iso_parse (lit "PRJ001")
           [neha] [drone_a; drone_b] [prj001; prj002; prj003] prj001 rec);
    [exact prj001_found|exact Hrec].
Defined.

Lemma empty_assignment_is_unassigned_witness :
  detect_conflicts ascii_lower iso_parse [neha; arjun; rohit] [drone_a; drone_b]
                   [prj001; prj002; prj003]
  = detect_conflicts ascii_lower iso_parse [neha; rohit] [drone_a; drone_b]
                     [prj001; prj002; prj003]
  /\ pilot_step ascii_lower iso_parse [prj001; prj002; prj003]
       (lit "Mapping") (lit "DGCA") (lit "Mumbai") (lit "2024-01-01") (lit "2024-01-10")
       [] arjun = Ok [arjun].
Proof.
  destruct (empty_assignment_is_unassigned ascii_lower iso_parse arjun [32; 0x2013; 32])
    as (Hpilots & _ & Hstep).
  - vm_compute. reflexivity.
  - apply list_elem_of_In. vm_compute. tauto.
  - split.
    + exact (Hpilots [neha] [rohit] [drone_a; drone_b] [prj001; prj002; prj003]).
    + exact (Hstep [prj001; prj002; prj003] (lit "Mapping") (lit "DGCA") (lit "Mumbai")
                   (lit "2024-01-01") (lit "2024-01-10") []).
Defined.


(** C3: the operations do not all survive a record with a missing field.
    [detect_conflicts] raises [KeyError] on a mission without "project_id",
    so does [urgent_reassignment_plan] on an urgent one, and
    [recommend_assignment] raises it when a candidate pilot's current
    mission has no "start_date". *)
Theorem missing_field_raises :
  detect_conflicts ascii_lower iso_parse [] [] [no_id_mission]
  = Raise (KeyError "project_id")
  /\ urgent_reassignment_plan ascii_lower iso_parse [no_id_mission] [] []
  = Raise (KeyError "project_id")
  /\ recommend_assignment ascii_lower iso_parse (lit "PRJ001")
       [neha] [drone_b] [prj001; no_start_mission]
  = Raise (KeyError "start_date").
Proof. repeat split; vm_compute; reflexivity. Qed.

(** ** Further runs on the sample fleet *)

Lemma sample_mission_map :
  exists mm, build_mission_map [prj001; prj002; prj003] = Ok mm
             /\ mm !! lit "PRJ001" = Some prj001.
Proof.
  destruct (build_mission_map_total [prj001; prj002; prj003]) as [mm Hmm];
    [vm_compute; reflexivity|].
  exists mm. split; [done|]. rewrite (mission_map_lookup _ _ (lit "PRJ001") Hmm).
  unfold next_mission, List.find, rev, app.
  assert (bool_decide (prj003 !! "project_id" = Some (lit "PRJ001")) = false) as ->
    by (vm_compute; reflexivity).
  assert (bool_decide (prj002 !! "project_id" = Some (lit "PRJ001")) = false) as ->
    by (vm_compute; reflexivity).
  assert (bool_decide (prj001 !! "project_id" = Some (lit "PRJ001")) = true) as ->
    by (vm_compute; reflexivity).
  reflexivity.
Qed.

Lemma sample_conflicts :
  detect_conflicts ascii_lower iso_parse [neha; arjun] [grounded_drone; drone_b]
                   [prj001; prj002; prj003]
  = Ok [ lit "Drone D003 is in maintenance but assigned to PRJ002.";
         lit "Pilot Neha assigned to PRJ002 overlaps with PRJ001." ].
Proof. vm_compute. reflexivity. Qed.

Lemma sample_dangling :
  detect_conflicts ascii_lower iso_parse [neha] [] [prj001]
  = Ok [ lit "Pilot Neha assigned to unknown mission PRJ002." ].
Proof. vm_compute. reflexivity. Qed.

Lemma sample_recommendation :
  recommend_assignment ascii_lower iso_parse (lit "PRJ001")
    [neha; arjun; rohit] [drone_a; drone_b] [prj001; prj002; prj003]
  = Ok (mk_rec (Some arjun) (Some drone_b) []).
Proof. vm_compute. reflexivity. Qed.

Lemma split_list_items_clean_witness :
  lit "Survey" <> [] /\ strip (lit "Survey") = lit "Survey" /\ comma ∉ lit "Survey".
Proof.
  apply (split_list_items_clean (lit " Mapping, Survey ,,  ")).
  apply list_elem_of_In. vm_compute. tauto.
Defined.

Lemma empty_assignment_ignores_padding_witness :
  _is_empty_assignment (Some (lit "  " ++ [0x2013] ++ lit " "))
  = _is_empty_assignment (Some [0x2013]).
Proof.
  apply (empty_assignment_ignores_padding (lit "  ") [0x2013] (lit " "));
    reflexivity.
Defined.

Lemma detector_maps_keep_last_witness :
  exists mm,
    build_mission_map [prj001; prj002; prj003] = Ok mm
    /\ (forall k, mm !! k = next_mission (rev [prj001; prj002; prj003]) (Some k))
    /\ build_drone_by_assignment [drone_a; drone_b] !! [] = None.
Proof.
  destruct sample_mission_map as (mm & Hmm & _). exists mm.
  destruct (detector_maps_keep_last [prj001; prj002; prj003] [drone_a; drone_b] mm Hmm)
    as (Hm & _ & Hd).
  by repeat split.
Defined.

Lemma unassigned_fleet_has_no_conflict_witness :
  detect_conflicts ascii_lower iso_parse [arjun] [drone_a; drone_b]
                   [prj001; prj002; prj003] = Ok [].
Proof.
  apply unassigned_fleet_has_no_conflict; vm_compute; reflexivity.
Defined.

Lemma maintenance_drone_is_flagged_witness :
  lit "Drone D003 is in maintenance but assigned to PRJ002."
  ∈ [ lit "Drone D003 is in maintenance but assigned to PRJ002.";
      lit "Pilot Neha assigned to PRJ002 overlaps with PRJ001." ].
Proof.
  apply (maintenance_drone_is_flagged ascii_lower iso_parse
           [neha; arjun] [grounded_drone; drone_b] [prj001; prj002; prj003]
           _ grounded_drone prj002 (lit "PRJ002")).
  - exact sample_conflicts.
  - left.
  - vm_compute. reflexivity.
  - intros H. apply list_elem_of_In in H. vm_compute in H.
    destruct H as [H|[H|[H|[H|[]]]]]; discriminate H.
  - right. left.
  - vm_compute. reflexivity.
  - vm_compute. reflexivity.
Defined.

Lemma dangling_assignment_is_flagged_witness :
  lit "Pilot Neha assigned to unknown mission PRJ002."
  ∈ [ lit "Pilot Neha assigned to unknown mission PRJ002." ].
Proof.
  destruct (dangling_assignment_is_flagged ascii_lower iso_parse
              [neha] [] [prj001] _ neha (lit "PRJ002") sample_dangling)
    as [Hpilot _].
  - vm_compute. reflexivity.
  - intros H. apply list_elem_of_In in H. vm_compute in H.
    destruct H as [H|[H|[H|[H|[]]]]]; discriminate H.
  - intros m ->%list_elem_of_singleton. vm_compute. discriminate.
  - apply Hpilot. left.
Defined.

Lemma overlaps_symmetric_witness :
  _overlaps iso_parse (lit "2024-01-01") (lit "2024-01-10")
            (lit "2024-01-05") (lit "2024-01-15")
  = _overlaps iso_parse (lit "2024-01-05") (lit "2024-01-15")
              (lit "2024-01-01") (lit "2024-01-10")
  /\ _overlaps iso_parse (lit "2024-01-01") (lit "2024-01-10")
               (lit "2024-01-01") (lit "2024-01-10") = Ok true.
Proof.
  exact (overlaps_symmetric iso_parse
           (lit "2024-01-01") (lit "2024-01-10") (lit "2024-01-05") (lit "2024-01-15")
           (midnight 2024 1 1) (midnight 2024 1 10)
           (midnight 2024 1 5) (midnight 2024 1 15)
           eq_refl eq_refl eq_refl eq_refl).
Defined.

Lemma accepted_recommendation_is_consistent_witness :
  exists mm,
    build_mission_map [prj001; prj002; prj003] = Ok mm
    /\ pilot_integrity_body ascii_lower mm [] (assign_to_project (lit "PRJ001") arjun) = []
    /\ drone_integrity_body ascii_lower mm [] (assign_to_project (lit "PRJ001") drone_b)
       = [].
Proof.
  destruct sample_mission_map as (mm & Hmm & Hk). exists mm. split; [exact Hmm|].
  apply (accepted_recommendation_is_consistent ascii_lower iso_parse (lit "PRJ001")
           [neha; arjun; rohit] [drone_a; drone_b] [prj001; prj002; prj003]
           (mk_rec (Some arjun) (Some drone_b) []) arjun drone_b prj001 mm).
  - exact sample_recommendation.
  - reflexivity.
  - reflexivity.
  - exact prj001_found.
  - exact Hmm.
  - exact Hk.
  - vm_compute. discriminate.
  - vm_compute. discriminate.
Defined.

Lemma extract_status_never_unavailable_witness :
  _extract_status ascii_lower (lit "update pilot P001 status Unavailable")
  = Some (lit "Available").
Proof.
  apply (extract_status_never_unavailable ascii_lower
           (lit "update pilot P001 status Unavailable"));
    vm_compute; reflexivity.
Defined.

Lemma assignment_removes_from_available_witness :
  filter_pilots ascii_lower
    (mark_assigned "pilot_id" (Some arjun) (lit "PRJ001") [neha; arjun; rohit] false).1
    None None None true
  = List.filter (fun p => negb (bool_decide (p !! "pilot_id" = arjun !! "pilot_id")))
                (filter_pilots ascii_lower [neha; arjun; rohit] None None None true).
Proof.
  destruct (assignment_removes_from_available ascii_lower arjun drone_b (lit "PRJ001")
              [neha; arjun; rohit] [drone_a; drone_b] None None None None)
    as (Hpilots & _ & _).
  - by apply (if_truthy_field arjun "name" (lit "Arjun")).
  - by apply (if_truthy_field drone_b "drone_id" (lit "D002")).
  - vm_compute. discriminate.
  - exact Hpilots.
Defined.

Lemma recommend_agrees_with_filter_pilots_witness :
  exists rec,
    recommend_assignment ascii_lower iso_parse (lit "PRJ001")
      [arjun] [drone_a; drone_b] [prj001; prj002; prj003] = Ok rec
    /\ pilot rec = head (filter_pilots ascii_lower [arjun]
                           (Some (get_d prj001 "required_skills" []))
                           (Some (get_d prj001 "required_certs" []))
                           (Some (get_d prj001 "location" [])) true).
Proof.
  apply (recommend_agrees_with_filter_pilots ascii_lower iso_parse (lit "PRJ001")
           [arjun] [drone_a; drone_b] [prj001; prj002; prj003] prj001).
  - exact prj001_found.
  - vm_compute. reflexivity.
  - vm_compute. discriminate.
  - vm_compute. discriminate.
  - vm_compute. discriminate.
  - vm_compute. reflexivity.
  - vm_compute. reflexivity.
  - vm_compute. reflexivity.
Defined.

Lemma conflict_report_is_bounded_witness :
  (length [ lit "Drone D003 is in maintenance but assigned to PRJ002.";
            lit "Pilot Neha assigned to PRJ002 overlaps with PRJ001." ]
   <= 5 * length [neha; arjun] + 3 * length [grounded_drone; drone_b])%nat.
Proof.
  exact (conflict_report_is_bounded ascii_lower iso_parse
           [neha; arjun] [grounded_drone; drone_b] [prj001; prj002; prj003] _
           sample_conflicts).
Defined.

Lemma sample_eligible :
  eligible_pilots_loop ascii_lower iso_parse [prj001; prj002; prj003]
    (get_d prj001 "required_skills" []) (get_d prj001 "required_certs" [])
    (get_d prj001 "location" [])
    (get_d prj001 "start_date" []) (get_d prj001 "end_date" [])
    [neha; arjun; rohit] = Ok [arjun; rohit].
Proof.
  destruct (eligible_pilots_loop_total ascii_lower iso_parse
              [prj001; prj002; prj003] prj001 [neha; arjun; rohit])
    as [eligible He]; [vm_compute; reflexivity..|].
  rewrite He. f_equal.
  apply eligible_pilots_loop_spec in He as ->. unfold List.filter.
  assert (pilot_eligible_b ascii_lower iso_parse [prj001; prj002; prj003] prj001 neha
          = false) as -> by (vm_compute; reflexivity).
  assert (pilot_eligible_b ascii_lower iso_parse [prj001; prj002; prj003] prj001 arjun
          = true) as -> by (vm_compute; reflexivity).
  assert (pilot_eligible_b ascii_lower iso_parse [prj001; prj002; prj003] prj001 rohit
          = true) as -> by (vm_compute; reflexivity).
  reflexivity.
Qed.

Lemma sample_names_differ : neha <> arjun /\ neha <> rohit.
Proof.
  split; intros H; apply (f_equal (fun r : record => r !! "name")) in H;
    vm_compute in H; discriminate H.
Qed.

Lemma eligible_pilots_iff_witness :
  eligible_pilots_loop ascii_lower iso_parse [prj001; prj002; prj003]
    (get_d prj001 "required_skills" []) (get_d prj001 "required_certs" [])
    (get_d prj001 "location" [])
    (get_d prj001 "start_date" []) (get_d prj001 "end_date" [])
    [neha; arjun; rohit] = Ok [arjun; rohit]
  /\ pilot_qualifies ascii_lower iso_parse [prj001; prj002; prj003] prj001 arjun
  /\ pilot_qualifies ascii_lower iso_parse [prj001; prj002; prj003] prj001 rohit
  /\ ~ pilot_qualifies ascii_lower iso_parse [prj001; prj002; prj003] prj001 neha.
Proof.
  destruct (eligible_pilots_iff ascii_lower iso_parse (lit "PRJ001")
              [neha; arjun; rohit] [drone_a; drone_b] [prj001; prj002; prj003] prj001
              prj001_found)
    as (_ & Hspec & _).
  destruct (Hspec [arjun; rohit] sample_eligible) as [_ Hiff].
  split; [exact sample_eligible|]. split; [|split].
  - destruct (Hiff arjun) as [H _]. apply H. left.
  - destruct (Hiff rohit) as [H _]. apply H. right. left.
  - intros Hq. destruct sample_names_differ as [Ha Hr].
    assert (neha ∈ [arjun; rohit]) as Hin by (apply Hiff; split; [left|exact Hq]).
    apply elem_of_cons in Hin as [Hin|Hin]; [done|].
    apply elem_of_cons in Hin as [Hin|Hin]; [done|].
    by apply elem_of_nil in Hin.
Defined.
